(** * The discounted-cash-flow engine of finsense

    A shallow embedding of [src/utils/dcf_calc.py] (class [DCFCalculator])
    and the properties of its specification.

    Numbers.  A Python [float], whether the caller supplies it (a rate, a
    cash flow, a share count) or the engine computes it, is a [float]: a
    rational, or one of the three special values [nan] and the two
    infinities.  Every comparison is decided as Python and numpy decide
    it: a comparison with [nan] is false.  Arithmetic on finite values is
    exact: rounding, overflow, underflow and the sign of zero are not
    modelled, with two exceptions, the two roundings that decide whether
    a Python division raises: [wacc - 1e-6] in [_terminal_value], which
    gives back [wacc] from 2^34 on, and [current_fcf / 1e9] in
    [calculate_valuation_metrics], which underflows to zero.  Beyond
    equalities between a result and the formula the code evaluates, the
    theorems state only orders and outcomes that the comparisons, the
    clipping and the special values decide, which rounding does not
    disturb.  Where a statement of the specification fails by rounding or
    overflow alone, the computation is evaluated in [Binary64], on
    primitive binary64 floats.  [calculate_wacc] and
    [_calculate_growth_rate] are modelled on rationals.

    numpy.  The random generator and the three transcendental functions
    ([np.exp], [np.log], [np.sqrt]) are an interface, [Numpy], that every
    stochastic function takes; the generator's global state is threaded
    explicitly. *)

From Stdlib Require Import String QArith Qabs Qround Lqa ZArith List Lia Bool.
From Stdlib Require Import Sorting.Sorted.
From Stdlib Require PrimFloat Uint63.
Import ListNotations.

Local Open Scope Q_scope.

(* ===================================================================== *)
(** ** Floating-point values with exact finite arithmetic *)
(* ===================================================================== *)

Inductive float : Type :=
| Fin (q : Q)
| PInf
| NInf
| NaN.

Definition Qltb (a b : Q) : bool := negb (Qle_bool b a).

Definition isfinite (x : float) : bool :=
  match x with Fin _ => true | _ => false end.

Definition isnan (x : float) : bool :=
  match x with NaN => true | _ => false end.

Definition fopp (x : float) : float :=
  match x with
  | Fin q => Fin (- q)
  | PInf => NInf
  | NInf => PInf
  | NaN => NaN
  end.

Definition fadd (x y : float) : float :=
  match x, y with
  | NaN, _ | _, NaN => NaN
  | Fin a, Fin b => Fin (a + b)
  | PInf, NInf | NInf, PInf => NaN
  | PInf, _ | _, PInf => PInf
  | NInf, _ | _, NInf => NInf
  end.

Definition fsub (x y : float) : float := fadd x (fopp y).

(** [signed q i]: the infinity [i] multiplied by the finite [q]. *)
Definition signed (q : Q) (i : float) : float :=
  match q ?= 0 with
  | Gt => i
  | Lt => fopp i
  | Eq => NaN
  end.

Definition fmul (x y : float) : float :=
  match x, y with
  | NaN, _ | _, NaN => NaN
  | Fin a, Fin b => Fin (a * b)
  | Fin a, i | i, Fin a => signed a i
  | PInf, PInf | NInf, NInf => PInf
  | PInf, NInf | NInf, PInf => NInf
  end.

(** numpy's division: dividing by zero gives an infinity or [nan] (the
    module silences the warning), it does not raise. *)
Definition fdiv (x y : float) : float :=
  match x, y with
  | NaN, _ | _, NaN => NaN
  | Fin a, Fin b =>
      if Qeq_bool b 0
      then match a ?= 0 with Gt => PInf | Lt => NInf | Eq => NaN end
      else Fin (a / b)
  | Fin _, _ => Fin 0
  | i, Fin b => if Qltb b 0 then fopp i else i
  | _, _ => NaN
  end.

(** Comparisons: every comparison with [nan] is false. *)
Definition fltb (x y : float) : bool :=
  match x, y with
  | NaN, _ | _, NaN => false
  | Fin a, Fin b => Qltb a b
  | NInf, NInf | PInf, _ | Fin _, NInf => false
  | NInf, _ | _, PInf => true
  end.

Definition fleb (x y : float) : bool :=
  match x, y with
  | NaN, _ | _, NaN => false
  | Fin a, Fin b => Qle_bool a b
  | NInf, _ | _, PInf => true
  | PInf, _ | _, NInf => false
  end.

Definition fgtb (x y : float) : bool := fltb y x.

Definition flt (x y : float) : Prop := fltb x y = true.
Definition fle (x y : float) : Prop := fleb x y = true.

(** Equality of values: rationals are compared as numbers. *)
Definition feq (x y : float) : Prop :=
  match x, y with
  | Fin a, Fin b => a == b
  | PInf, PInf | NInf, NInf | NaN, NaN => True
  | _, _ => False
  end.

Declare Scope float_scope.
Delimit Scope float_scope with float.
Bind Scope float_scope with float.
Infix "+" := fadd : float_scope.
Infix "-" := fsub : float_scope.
Infix "*" := fmul : float_scope.
Infix "/" := fdiv : float_scope.

(** [np.power(x, t)] for the whole exponents [t = 1, 2, ...] the engine
    uses, as a repeated product. *)
Fixpoint fpow (x : float) (n : nat) : float :=
  match n with
  | O => Fin 1
  | S O => x
  | S m => fmul x (fpow x m)
  end.

(** [np.minimum], [np.maximum] and [np.clip] propagate [nan]. *)
Definition np_minimum (x y : float) : float :=
  match x, y with
  | NaN, _ | _, NaN => NaN
  | _, _ => if fleb x y then x else y
  end.

Definition np_maximum (x y : float) : float :=
  match x, y with
  | NaN, _ | _, NaN => NaN
  | _, _ => if fleb x y then y else x
  end.

Definition np_clip (x lo hi : float) : float :=
  np_minimum (np_maximum x lo) hi.

(** Python's built-in [min(a, b)]: the second argument only when it is
    strictly smaller. *)
Definition py_min (a b : float) : float := if fltb b a then b else a.

Definition fsum (l : list float) : float := fold_left fadd l (Fin 0).

(** [np.arange(1, n + 1)]. *)
Definition arange1 (n : nat) : list nat := seq 1 n.

Definition of_nat (n : nat) : float := Fin (inject_Z (Z.of_nat n)).

(* ===================================================================== *)
(** ** Exceptions *)
(* ===================================================================== *)

Inductive exn : Type :=
| ValueError (msg : string)
| ZeroDivisionError
| IndexError
| TypeError
| AttributeError.

Inductive result (A : Type) : Type :=
| Ok (a : A)
| Raise (e : exn).
Arguments Ok {A} a.
Arguments Raise {A} e.

Definition rbind {A B : Type} (c : result A) (k : A -> result B) : result B :=
  match c with
  | Ok a => k a
  | Raise e => Raise e
  end.

Declare Scope result_scope.
Delimit Scope result_scope with result.
Notation "x <- c ;; k" := (rbind c (fun x => k))
  (at level 61, c at next level, right associativity) : result_scope.

(** Python's division of two built-in floats raises on a zero divisor. *)
Definition py_truediv (x y : float) : result float :=
  match y with
  | Fin b => if Qeq_bool b 0 then Raise ZeroDivisionError else Ok (fdiv x y)
  | _ => Ok (fdiv x y)
  end.

(** [a[-1]] on a sequence. *)
Definition last_item {A : Type} (l : list A) : result A :=
  match rev l with
  | x :: _ => Ok x
  | [] => Raise IndexError
  end.

(* ===================================================================== *)
(** ** Input normalisation *)
(* ===================================================================== *)

Record CapitalBridge : Type := {
  net_debt : float;
  non_operating_assets : float;
  minority_interest : float;
  other_adjustments : float
}.

Definition default_bridge : CapitalBridge :=
  {| net_debt := Fin 0; non_operating_assets := Fin 0;
     minority_interest := Fin 0; other_adjustments := Fin 0 |}.

Definition msg_years : string := "years must be between 3 and 10".
Definition msg_wacc : string :=
  "WACC must be strictly greater than terminal growth".
Definition msg_negative : string :=
  "WACC and terminal growth must be non negative".

(** The three tests of [_validate_inputs]; each is false when a rate is
    [nan], so [nan] rates pass. *)
Definition _validate_inputs (wacc tg : float) (years : Z) : result unit :=
  if ((years <? 3)%Z || (years >? 10)%Z)%bool then
    Raise (ValueError msg_years)
  else if fleb wacc tg then
    Raise (ValueError msg_wacc)
  else if (fltb wacc (Fin 0) || fltb tg (Fin 0))%bool then
    Raise (ValueError msg_negative)
  else Ok tt.

(** Python's [max] over a non-empty list: keep the first maximum. *)
Definition py_max (x : float) (l : list float) : float :=
  fold_left (fun m y => if fgtb y m then y else m) l x.

Definition default_fcf : float := Fin 1000000000.

Definition _pick_base_fcf (fcf_history : list float) : float :=
  match rev fcf_history with
  | [] => default_fcf
  | most_recent :: _ =>
      if fgtb most_recent (Fin 0) then most_recent
      else
        match filter (fun x => fgtb x (Fin 0)) fcf_history with
        | [] => default_fcf
        | p :: positives => py_max p positives
        end
  end.

(** The stock-compensation adjustment of [calculate_dcf_valuation]. *)
Definition sbc_adjust (treat_sbc_as_cash_cost : bool)
    (sbc_percent_of_fcf base_fcf : float) : float :=
  if (treat_sbc_as_cash_cost && fgtb sbc_percent_of_fcf (Fin 0))%bool
  then fmul base_fcf (fsub (Fin 1) sbc_percent_of_fcf)
  else base_fcf.

(** Real to nominal: [(1 + r) * (1 + inflation) - 1]. *)
Definition to_nominal (real_mode : bool) (inflation r : float) : float :=
  if real_mode
  then fsub (fmul (fadd (Fin 1) r) (fadd (Fin 1) inflation)) (Fin 1)
  else r.

(* ===================================================================== *)
(** ** Base case *)
(* ===================================================================== *)

Local Open Scope float_scope.

(** [base_fcf * np.power(1 + g, t)] for [t = 1 .. years]. *)
Definition _project_fcf (base_fcf g : float) (years : nat) : list float :=
  map (fun t => base_fcf * fpow (Fin 1 + g) t) (arange1 years).

(** [cashflows / np.power(1 + rate, t)] for [t = 1 .. cashflows.size]. *)
Definition _pv_series (cashflows : list float) (rate : float) : list float :=
  map (fun ct => fst ct / fpow (Fin 1 + rate) (snd ct))
      (combine cashflows (arange1 (length cashflows))).

(** [wacc - 1e-6] in binary64.  Once the next float below [wacc] is more
    than 2e-6 away, the difference rounds back to [wacc] itself: this is
    the case of every float above 2^34 and of every float at or below
    -2^34 (below 2^34 itself the next float is 2^-19 away, and the
    difference rounds to it).  This rounding decides whether
    [_terminal_value] divides by zero, so the model keeps it. *)
Definition absorbs_1e6 (w : Q) : bool :=
  (Qltb 17179869184 w || Qle_bool w (-17179869184))%bool.

Definition less_1e6 (wacc : float) : float :=
  match wacc with
  | Fin w => if absorbs_1e6 w then wacc else Fin (w - 0.000001)
  | _ => wacc - Fin 0.000001
  end.

Definition _terminal_value (last_fcf wacc tg : float) : result float :=
  let tg := if fleb wacc tg then py_min tg (less_1e6 wacc) else tg in
  py_truediv (last_fcf * (Fin 1 + tg)) (wacc - tg).

Definition _shares_path (start_shares annual_change : float) (years : nat)
  : float :=
  start_shares * fpow (Fin 1 + annual_change) years.

Record BaseCase : Type := {
  enterprise_value : float;
  equity_value : float;
  equity_value_per_share : float;
  pv_explicit_period : float;
  pv_terminal_value : float;
  terminal_value_gordon : float;
  terminal_value_share_of_ev : float;
  fcf_projections : list float;
  pv_fcf_projections : list float;
  terminal_fcf_year : float;
  shares_end_year : float
}.

(** The bridge from enterprise value to equity value. *)
Definition bridge_equity (ev : float) (bridge : CapitalBridge) : float :=
  ev - net_debt bridge + non_operating_assets bridge
     - minority_interest bridge + other_adjustments bridge.

Definition _base_case_breakdown (base_fcf g wacc tg : float) (years : nat)
    (shares_out annual_share_change : float) (bridge : CapitalBridge)
  : result BaseCase :=
  (let fcf := _project_fcf base_fcf g years in
   let pv_explicit := _pv_series fcf wacc in
   terminal_fcf <- last_item fcf ;;
   tv <- _terminal_value terminal_fcf wacc tg ;;
   let pv_tv := tv / fpow (Fin 1 + wacc) years in
   let ev := fsum pv_explicit + pv_tv in
   let equity := bridge_equity ev bridge in
   let end_shares := _shares_path shares_out annual_share_change years in
   let per_share :=
     if fgtb end_shares (Fin 0) then equity / end_shares else NaN in
   Ok {| enterprise_value := ev;
         equity_value := equity;
         equity_value_per_share := per_share;
         pv_explicit_period := fsum pv_explicit;
         pv_terminal_value := pv_tv;
         terminal_value_gordon := tv;
         terminal_value_share_of_ev :=
           if fgtb ev (Fin 0) then pv_tv / ev else NaN;
         fcf_projections := fcf;
         pv_fcf_projections := pv_explicit;
         terminal_fcf_year := terminal_fcf;
         shares_end_year := end_shares |})%result.

(* ===================================================================== *)
(** ** Diagnostics *)
(* ===================================================================== *)

Record Diagnostics : Type := {
  terminal_value_share : float;
  terminal_value_dominant : bool;
  duration_years_pv_cashflows : float;
  pv_explicit_to_pv_terminal_ratio : float;
  health_flags : list string
}.

(** The duration block of [_diagnostics], on the array of yearly present
    values. *)
Definition duration_years (fcf_pv : list float) : float :=
  if (negb (Nat.eqb (length fcf_pv) 0) && forallb isfinite fcf_pv)%bool then
    let t := map of_nat (arange1 (length fcf_pv)) in
    let weights :=
      if fgtb (fsum fcf_pv) (Fin 0)
      then map (fun x => x / fsum fcf_pv) fcf_pv
      else map (fun _ => Fin 0) fcf_pv in
    fsum (map (fun tw => fst tw * snd tw) (combine t weights))
  else NaN.

(** Python's truth value of a float: zero is false, [nan] is true. *)
Definition truthy (x : float) : bool :=
  match x with
  | Fin q => negb (Qeq_bool q 0)
  | _ => true
  end.

Definition _diagnostics (base : BaseCase) (wacc tg : float) (years : nat)
  : Diagnostics :=
  let ev := enterprise_value base in
  let pv_exp := pv_explicit_period base in
  let pv_tv := pv_terminal_value base in
  let fcf_pv := pv_fcf_projections base in
  let terminal_share := if fgtb ev (Fin 0) then pv_tv / ev else NaN in
  let terminal_dominant :=
    if isfinite terminal_share then fgtb terminal_share (Fin 0.7)
    else false in
  let duration := duration_years fcf_pv in
  let flags :=
    ((if fleb wacc tg
      then ["WACC not greater than terminal growth"%string] else [])
     ++ (if (negb (isfinite ev) || fleb ev (Fin 0))%bool
         then ["Enterprise value non positive"%string] else [])
     ++ (if (truthy duration && fltb duration (Fin 2))%bool
         then ["Short duration implies heavy back loading"%string] else [])
     ++ (if terminal_dominant
         then ["Terminal value dominates the enterprise value"%string]
         else []))%list in
  {| terminal_value_share := terminal_share;
     terminal_value_dominant := terminal_dominant;
     duration_years_pv_cashflows := duration;
     pv_explicit_to_pv_terminal_ratio :=
       if fgtb pv_tv (Fin 0) then pv_exp / pv_tv else NaN;
     health_flags := flags |}.

(* ===================================================================== *)
(** ** numpy: the random generator and the functions taken as given *)
(* ===================================================================== *)

(** The generator is numpy's global one: [np.random.seed] replaces its
    state, every sampler reads and advances it.  The samplers return as
    many variates as asked for, and [np.random.choice(np.arange(n), size=k,
    replace=False)] returns [k] indices below [n]. *)
Record Numpy : Type := {
  rng_state : Type;
  np_random_seed : Z -> rng_state;
  np_random_rand : nat -> rng_state -> list Q * rng_state;
  np_random_standard_normal : nat -> rng_state -> list Q * rng_state;
  np_random_standard_t : Z -> nat -> rng_state -> list Q * rng_state;
  np_random_choice : nat -> nat -> rng_state -> list nat * rng_state;
  np_exp : float -> float;
  np_log : float -> float;
  np_sqrt : float -> float;
  rand_size : forall n s, length (fst (np_random_rand n s)) = n;
  standard_normal_size :
    forall n s, length (fst (np_random_standard_normal n s)) = n;
  standard_t_size :
    forall df n s, length (fst (np_random_standard_t df n s)) = n;
  choice_size :
    forall n k s, (k <= n)%nat -> length (fst (np_random_choice n k s)) = k;
  choice_range :
    forall n k s i, In i (fst (np_random_choice n k s)) -> (i < n)%nat
}.

(** Element-wise operations on arrays of one length. *)
Definition vmap2 {A B C : Type} (f : A -> B -> C) (a : list A) (b : list B)
  : list C :=
  map (fun p => f (fst p) (snd p)) (combine a b).

Definition np_where {A : Type} (c : list bool) (a b : list A) : list A :=
  vmap2 (fun (ci : bool) (ab : A * A) => if ci then fst ab else snd ab)
        c (combine a b).

(** A value that is an array on one path and a bare Python float on
    another. *)
Inductive pyvalue : Type :=
| NdArray (a : list float)
| PyFloat (x : float).

(** [v[i]]: an array is indexed, a float is not subscriptable. *)
Definition getitem (v : pyvalue) (i : nat) : result float :=
  match v with
  | NdArray a =>
      match nth_error a i with
      | Some x => Ok x
      | None => Raise IndexError
      end
  | PyFloat _ => Raise TypeError
  end.

Definition index {A : Type} (a : list A) (i : nat) : result A :=
  match nth_error a i with
  | Some x => Ok x
  | None => Raise IndexError
  end.

(* ===================================================================== *)
(** ** Summary statistics *)
(* ===================================================================== *)

Fixpoint insert_sorted (x : float) (l : list float) : list float :=
  match l with
  | [] => [x]
  | y :: l' => if fleb x y then x :: l else y :: insert_sorted x l'
  end.

Definition np_sort (l : list float) : list float :=
  fold_right insert_sorted [] l.

Definition np_mean (l : list float) : float :=
  fsum l / of_nat (length l).

(** [np.percentile(a, q)], numpy's default (linear) method: the value at
    the virtual index [q / 100 * (n - 1)] of the sorted array, interpolated
    between its two neighbours. *)
Definition np_percentile (l : list float) (q : Q) : float :=
  let s := np_sort l in
  let n := length s in
  let h := (q / 100 * inject_Z (Z.of_nat (n - 1)))%Q in
  let i := Z.to_nat (Qfloor h) in
  let gamma := (h - inject_Z (Qfloor h))%Q in
  let lo := nth i s NaN in
  let hi := nth (Nat.min (i + 1) (n - 1)) s NaN in
  lo + (hi - lo) * Fin gamma.

(** [np.median]: the middle element, or the mean of the two middle ones. *)
Definition np_median (l : list float) : float :=
  let s := np_sort l in
  let n := length s in
  let k := (n / 2)%nat in
  if Nat.odd n then nth k s NaN
  else (nth (k - 1) s NaN + nth k s NaN) / Fin 2.

Definition np_min (l : list float) : float :=
  match l with
  | [] => NaN
  | x :: l' => fold_left np_minimum l' x
  end.

Definition np_max (l : list float) : float :=
  match l with
  | [] => NaN
  | x :: l' => fold_left np_maximum l' x
  end.

Record Summary : Type := {
  s_mean : float;
  s_median : float;
  s_std : float;
  s_p5 : float;
  s_p25 : float;
  s_p75 : float;
  s_p95 : float;
  s_min : float;
  s_max : float;
  s_count : nat
}.

Definition nan_summary : Summary :=
  {| s_mean := NaN; s_median := NaN; s_std := NaN;
     s_p5 := NaN; s_p25 := NaN; s_p75 := NaN; s_p95 := NaN;
     s_min := NaN; s_max := NaN; s_count := 0 |}.

Section Engine.

Variable np : Numpy.

(** [np.std]: the population standard deviation. *)
Definition np_std (l : list float) : float :=
  let m := np_mean l in
  np_sqrt np (np_mean (map (fun x => (x - m) * (x - m)) l)).

(** The body of [_summarize_mc] once [per_share] is known to be an array. *)
Definition summarize_array (per_share : list float) : Summary :=
  if (Nat.eqb (length per_share) 0 || negb (existsb isfinite per_share))%bool
  then nan_summary
  else
    let clean := filter isfinite per_share in
    {| s_mean := np_mean clean;
       s_median := np_median clean;
       s_std := np_std clean;
       s_p5 := np_percentile clean 5;
       s_p25 := np_percentile clean 25;
       s_p75 := np_percentile clean 75;
       s_p95 := np_percentile clean 95;
       s_min := np_min clean;
       s_max := np_max clean;
       s_count := length clean |}.

(** [per_share.size] exists on an array only. *)
Definition _summarize_mc (per_share : pyvalue) : result Summary :=
  match per_share with
  | NdArray a => Ok (summarize_array a)
  | PyFloat _ => Raise AttributeError
  end.

(* ------------------------------------------------------------------- *)
(** *** Computations that read the generator and may raise *)

Definition M (A : Type) : Type :=
  rng_state np -> result A * rng_state np.

Definition mret {A : Type} (a : A) : M A := fun s => (Ok a, s).

Definition mraise {A : Type} (e : exn) : M A := fun s => (Raise e, s).

Definition mbind {A B : Type} (c : M A) (k : A -> M B) : M B :=
  fun s =>
    match c s with
    | (Ok a, s') => k a s'
    | (Raise e, s') => (Raise e, s')
    end.

Definition lift {A : Type} (r : result A) : M A := fun s => (r, s).

Notation "x <~ c ;; k" := (mbind c (fun x => k))
  (at level 61, c at next level, right associativity).

Definition rand (n : nat) : M (list float) :=
  fun s =>
    let r := np_random_rand np n s in (Ok (map Fin (fst r)), snd r).

(** [np.random.normal(loc, scale, size)]: [loc + scale * z] for standard
    normal variates [z]. *)
Definition normal (loc scale : float) (n : nat) : M (list float) :=
  fun s =>
    let r := np_random_standard_normal np n s in
    (Ok (map (fun zi => loc + scale * Fin zi) (fst r)), snd r).

Definition standard_t (df : Z) (n : nat) : M (list float) :=
  fun s =>
    let r := np_random_standard_t np df n s in (Ok (map Fin (fst r)), snd r).

Definition choice (n k : nat) : M (list nat) :=
  fun s => let r := np_random_choice np n k s in (Ok (fst r), snd r).

(* ------------------------------------------------------------------- *)
(** *** Monte Carlo *)

(** The per-trial arrays of [_monte_carlo_vectorized]. *)
Record Trials : Type := {
  mc_recession : list bool;
  mc_g : list float;
  mc_w : list float;
  mc_tg : list float;
  mc_base_draw : list float
}.

(** Lines 254-285: the regime flag and the four sampled inputs. *)
Definition sample_trials (base_fcf base_growth base_wacc base_tg : float)
    (n : nat) (recession_prob : float) : M Trials :=
  u <~ rand n ;;
  let recession := map (fun x => fltb x recession_prob) u in
  core_g <~ normal base_growth (Fin 0.02) n ;;
  t5 <~ standard_t 5 n ;;
  let tail_g := map (fun x => base_growth + Fin 0.04 * x) t5 in
  let g :=
    np_where recession
      (map (fun c => np_minimum c (base_growth - Fin 0.03)) core_g)
      (vmap2 (fun c t => Fin 0.7 * c + Fin 0.3 * t) core_g tail_g) in
  let g := map (fun x => np_clip x (Fin (-0.30)) (Fin 0.40)) g in
  core_w <~ normal base_wacc (Fin 0.01) n ;;
  t6 <~ standard_t 6 n ;;
  let tail_w := map (fun x => base_wacc + Fin 0.02 * x) t6 in
  let w := vmap2 (fun c t => Fin 0.7 * c + Fin 0.3 * t) core_w tail_w in
  let w := np_where recession (map (fun x => x + Fin 0.01) w) w in
  let w := map (fun x => np_clip x (Fin 0.05) (Fin 0.20)) w in
  tg <~ normal base_tg (Fin 0.003) n ;;
  let tg := map (fun x => np_clip x (Fin 0.005) (Fin 0.04)) tg in
  let tg := vmap2 np_minimum tg (map (fun x => x - Fin 0.0001) w) in
  let sigma := Fin 0.10 in
  z <~ normal (Fin 0) (np_log np (Fin 1 + sigma)) n ;;
  let base_draw := map (fun x => base_fcf * np_exp np x) z in
  let base_draw :=
    np_where recession (map (fun x => x * Fin 0.9) base_draw) base_draw in
  mret {| mc_recession := recession; mc_g := g; mc_w := w; mc_tg := tg;
          mc_base_draw := base_draw |}.

(** Lines 288-308: the valuation of every trial; returns [ev] and
    [per_share]. *)
Definition value_trials (tr : Trials) (years : nat)
    (shares annual_share_change : float) (bridge : CapitalBridge)
  : result (list float * pyvalue) :=
  (let t := arange1 years in
   let growth_matrix :=
     map (fun gi => map (fun ti => fpow (Fin 1 + gi) ti) t) (mc_g tr) in
   let fcf_paths :=
     vmap2 (fun b row => map (fun x => b * x) row)
           (mc_base_draw tr) growth_matrix in
   let disc_matrix :=
     map (fun wi => map (fun ti => fpow (Fin 1 + wi) ti) t) (mc_w tr) in
   let pv_explicit :=
     vmap2 (fun frow drow => fsum (vmap2 fdiv frow drow))
           fcf_paths disc_matrix in
   terminal_fcf <-
     (if Nat.eqb years 0 then Raise IndexError
      else Ok (map (fun row => last row NaN) fcf_paths)) ;;
   let tv :=
     vmap2 fdiv
       (vmap2 (fun f tgi => f * (Fin 1 + tgi)) terminal_fcf (mc_tg tr))
       (vmap2 fsub (mc_w tr) (mc_tg tr)) in
   let pv_tv := vmap2 (fun x wi => x / fpow (Fin 1 + wi) years) tv (mc_w tr) in
   let ev := vmap2 fadd pv_explicit pv_tv in
   let equity := map (fun e => bridge_equity e bridge) ev in
   let end_shares := _shares_path shares annual_share_change years in
   let per_share :=
     if fgtb end_shares (Fin 0)
     then NdArray (map (fun e => e / end_shares) equity)
     else PyFloat NaN in
   Ok (ev, per_share))%result.

Record ScenarioDraw : Type := {
  d_base_fcf : float;
  d_growth_rate : float;
  d_wacc : float;
  d_terminal_growth : float;
  d_enterprise_value : float;
  d_equity_value_per_share : float;
  d_recession : bool
}.

(** One turn of the loop of lines 315-324. *)
Definition detail_of (tr : Trials) (ev : list float) (per_share : pyvalue)
    (i : nat) : result ScenarioDraw :=
  (b <- index (mc_base_draw tr) i ;;
   gi <- index (mc_g tr) i ;;
   wi <- index (mc_w tr) i ;;
   tgi <- index (mc_tg tr) i ;;
   evi <- index ev i ;;
   psi <- getitem per_share i ;;
   ri <- index (mc_recession tr) i ;;
   Ok {| d_base_fcf := b; d_growth_rate := gi; d_wacc := wi;
         d_terminal_growth := tgi; d_enterprise_value := evi;
         d_equity_value_per_share := psi; d_recession := ri |})%result.

Fixpoint for_each {A B : Type} (f : A -> result B) (l : list A)
  : result (list B) :=
  match l with
  | [] => Ok []
  | x :: l' =>
      (y <- f x ;;
       ys <- for_each f l' ;;
       Ok (y :: ys))%result
  end.

Definition _monte_carlo_vectorized
    (base_fcf base_growth base_wacc base_tg : float) (years : nat)
    (shares annual_share_change : float) (bridge : CapitalBridge)
    (n : Z) (recession_prob : float) : M (pyvalue * list ScenarioDraw) :=
  if (n <? 0)%Z then
    mraise (ValueError "negative dimensions are not allowed")
  else
    let n := Z.to_nat n in
    tr <~ sample_trials base_fcf base_growth base_wacc base_tg n
                        recession_prob ;;
    vals <~ lift (value_trials tr years shares annual_share_change bridge) ;;
    let take := Nat.min 25 n in
    idx <~ choice n take ;;
    details <~ lift (for_each (detail_of tr (fst vals) (snd vals)) idx) ;;
    mret (snd vals, details).

(* ------------------------------------------------------------------- *)
(** *** The calculator *)

(** The arguments of [calculate_dcf_valuation]. *)
Record Inputs : Type := {
  fcf_history : list float;
  fcf_growth_rate : float;
  wacc : float;
  terminal_growth : float;
  shares_outstanding : float;
  monte_carlo_runs : Z;
  years : Z;
  bridge : option CapitalBridge;
  annual_share_change : float;
  treat_sbc_as_cash_cost : bool;
  sbc_percent_of_fcf : float;
  real_mode : bool;
  inflation : float;
  recession_prob : float
}.

(** The echo of the resolved assumptions in the result. *)
Record Assumptions : Type := {
  a_base_fcf : float;
  a_growth_rate : float;
  a_wacc : float;
  a_terminal_growth : float;
  a_years : Z;
  a_shares_outstanding_start : float;
  a_annual_share_change : float;
  a_treat_sbc_as_cash_cost : bool;
  a_sbc_percent_of_fcf : float;
  a_real_mode : bool;
  a_inflation : float;
  a_recession_prob : float
}.

Record ValuationResult : Type := {
  base_case : BaseCase;
  monte_carlo : Summary;
  diagnostics : Diagnostics;
  assumptions : Assumptions;
  mc_sample_scenarios : list ScenarioDraw
}.

(** The base FCF after the stock-compensation adjustment, and the three
    nominal rates. *)
Definition resolved_base_fcf (a : Inputs) : float :=
  sbc_adjust (treat_sbc_as_cash_cost a) (sbc_percent_of_fcf a)
             (_pick_base_fcf (fcf_history a)).

Definition g_nom (a : Inputs) : float :=
  to_nominal (real_mode a) (inflation a) (fcf_growth_rate a).
Definition wacc_nom (a : Inputs) : float :=
  to_nominal (real_mode a) (inflation a) (wacc a).
Definition tg_nom (a : Inputs) : float :=
  to_nominal (real_mode a) (inflation a) (terminal_growth a).

Definition resolved_bridge (a : Inputs) : CapitalBridge :=
  match bridge a with
  | Some b => b
  | None => default_bridge
  end.

Definition calculate_dcf_valuation (a : Inputs) : M ValuationResult :=
  _ <~ lift (_validate_inputs (wacc a) (terminal_growth a) (years a)) ;;
  let base_fcf := resolved_base_fcf a in
  let n_years := Z.to_nat (years a) in
  base_breakdown <~
    lift (_base_case_breakdown base_fcf (g_nom a) (wacc_nom a) (tg_nom a)
            n_years (shares_outstanding a) (annual_share_change a)
            (resolved_bridge a)) ;;
  mc <~ _monte_carlo_vectorized base_fcf (g_nom a) (wacc_nom a) (tg_nom a)
          n_years (shares_outstanding a) (annual_share_change a)
          (resolved_bridge a) (monte_carlo_runs a) (recession_prob a) ;;
  summary <~ lift (_summarize_mc (fst mc)) ;;
  mret {| base_case := base_breakdown;
          monte_carlo := summary;
          diagnostics :=
            _diagnostics base_breakdown (wacc_nom a) (tg_nom a) n_years;
          assumptions :=
            {| a_base_fcf := base_fcf;
               a_growth_rate := g_nom a;
               a_wacc := wacc_nom a;
               a_terminal_growth := tg_nom a;
               a_years := years a;
               a_shares_outstanding_start := shares_outstanding a;
               a_annual_share_change := annual_share_change a;
               a_treat_sbc_as_cash_cost := treat_sbc_as_cash_cost a;
               a_sbc_percent_of_fcf := sbc_percent_of_fcf a;
               a_real_mode := real_mode a;
               a_inflation := inflation a;
               a_recession_prob := recession_prob a |};
          mc_sample_scenarios := firstn 10 (snd mc) |}.

(** [DCFCalculator(seed=...)]: the constructor reseeds the global
    generator when a seed is given and leaves it alone otherwise. *)
Definition __init__ (seed : option Z) (s : rng_state np) : rng_state np :=
  match seed with
  | Some k => np_random_seed np k
  | None => s
  end.

(** A run: construct the calculator, then value once. *)
Definition run (seed : option Z) (a : Inputs) (s : rng_state np)
  : result ValuationResult * rng_state np :=
  calculate_dcf_valuation a (__init__ seed s).



End Engine.

Arguments calculate_dcf_valuation np a s : simpl never.

(* ===================================================================== *)
(** ** A test double of the numpy interface

    A linear congruential generator and low-order rational stand-ins for
    the transcendental functions: enough to run the engine on concrete
    inputs.  No property below depends on it. *)
(* ===================================================================== *)

Module Toy.

Definition lcg (s : Z) : Z := ((1103515245 * s + 12345) mod 2147483648)%Z.

Fixpoint draws (f : Z -> Q) (n : nat) (s : Z) : list Q * Z :=
  match n with
  | O => ([], s)
  | S m =>
      let s1 := lcg s in
      let r := draws f m s1 in
      (f s1 :: fst r, snd r)
  end.

Definition uniform (s : Z) : Q := (s mod 1000)%Z # 1000.
Definition centred (s : Z) : Q := ((s mod 4001)%Z - 2000)%Z # 1000.

Definition lift1 (f : Q -> Q) (x : float) : float :=
  match x with
  | Fin q => Fin (Qred (f q))
  | _ => x
  end.

Lemma draws_size f n s : length (fst (draws f n s)) = n.
Proof.
  revert s; induction n as [|n IH]; intros s; simpl; [reflexivity|].
  now rewrite IH.
Defined.

Lemma firstn_seq_size n k : (k <= n)%nat -> length (firstn k (seq 0 n)) = k.
Proof.
  intros H. rewrite length_firstn, length_seq. apply Nat.min_l, H.
Defined.

Lemma firstn_seq_range n k i : In i (firstn k (seq 0 n)) -> (i < n)%nat.
Proof.
  intros H.
  assert (In i (seq 0 n)) as Hi
    by (rewrite <- (firstn_skipn k); apply in_or_app; now left).
  apply in_seq in Hi. lia.
Defined.

Definition numpy : Numpy :=
  {| rng_state := Z;
     np_random_seed := fun k => k;
     np_random_rand := draws uniform;
     np_random_standard_normal := draws centred;
     np_random_standard_t := fun _ => draws centred;
     np_random_choice := fun n k s => (firstn k (seq 0 n), lcg s);
     np_exp := lift1 (fun q => 1 + q + q * q / 2)%Q;
     np_log := lift1 (fun q => (q - 1) - (q - 1) * (q - 1) / 2)%Q;
     np_sqrt := lift1 (fun q => (q + 1) / 2)%Q;
     rand_size := draws_size uniform;
     standard_normal_size := draws_size centred;
     standard_t_size := fun _ => draws_size centred;
     choice_size := fun n k _ => firstn_seq_size n k;
     choice_range := fun n k _ i => firstn_seq_range n k i |}.

End Toy.

(** Scenario A of the specification, with a handful of Monte Carlo runs. *)
Definition scenario_A : Inputs :=
  {| fcf_history := [Fin 100; Fin 110; Fin 121; Fin 133.1];
     fcf_growth_rate := Fin 0.05;
     wacc := Fin 0.10;
     terminal_growth := Fin 0.03;
     shares_outstanding := Fin 1000;
     monte_carlo_runs := 4;
     years := 5;
     bridge := None;
     annual_share_change := Fin 0;
     treat_sbc_as_cash_cost := true;
     sbc_percent_of_fcf := Fin 0;
     real_mode := false;
     inflation := Fin 0.03;
     recession_prob := Fin 0.15 |}.

(* ===================================================================== *)
(** ** The rest of the calculator *)
(* ===================================================================== *)

(** The attributes [DCFCalculator.__init__] stores. *)
Record DCFCalculator : Type := {
  risk_free_rate : Q;
  market_risk_premium : Q;
  default_beta : Q
}.

(** [DCFCalculator()] with the default arguments. *)
Definition default_calculator : DCFCalculator :=
  {| risk_free_rate := 0.045; market_risk_premium := 0.06;
     default_beta := 1 |}.

(** [x if x is not None else d]. *)
Definition or_else (x : option Q) (d : Q) : Q :=
  match x with
  | Some v => v
  | None => d
  end.

Definition calculate_wacc (self : DCFCalculator) (beta : Q)
    (risk_free_rate_arg market_risk_premium_arg : option Q)
    (cost_of_debt tax_rate debt_to_equity : Q) : result float :=
  (let rf := Fin (or_else risk_free_rate_arg (risk_free_rate self)) in
   let mrp :=
     Fin (or_else market_risk_premium_arg (market_risk_premium self)) in
   let coe := rf + Fin beta * mrp in
   let after_tax_cod := Fin cost_of_debt * (Fin 1 - Fin tax_rate) in
   let total := Fin 1 + Fin debt_to_equity in
   w_e <- py_truediv (Fin 1) total ;;
   w_d <- py_truediv (Fin debt_to_equity) total ;;
   Ok (w_e * coe + w_d * after_tax_cod))%result.

Record ValuationMetrics : Type := {
  dcf_vs_current : float;
  upside_downside_multiple : float;
  fcf_yield : float;
  price_to_fcf : float
}.

(** [calculate_valuation_metrics]; the empty dictionary is [None]. *)
(** [current_fcf / 1e9] in binary64 on a positive cash flow.  Up to
    1953125 * 2^-1066 (about 2.47e-315) the quotient is at most half the
    smallest positive float and rounds to 0.0.  This rounding decides
    whether [calculate_valuation_metrics] divides by zero, so the model
    keeps it. *)
Definition tiny_fcf : Q := 1953125 # (2 ^ 1066).

Definition in_billions (current_fcf : float) : float :=
  match current_fcf with
  | Fin q => if Qle_bool q tiny_fcf then Fin 0 else Fin (q / 1000000000)
  | _ => current_fcf / Fin 1000000000
  end.

Definition calculate_valuation_metrics
    (current_price dcf_price market_cap : float) (history : list float)
  : result (option ValuationMetrics) :=
  match history with
  | [] => Ok None
  | _ :: _ =>
      (let current_fcf := _pick_base_fcf history in
       v1 <- py_truediv (dcf_price - current_price) current_price ;;
       v2 <- py_truediv dcf_price current_price ;;
       v3 <- (if fgtb market_cap (Fin 0)
              then py_truediv current_fcf market_cap
              else Ok (Fin 0)) ;;
       v4 <- (if fgtb current_fcf (Fin 0)
              then py_truediv current_price (in_billions current_fcf)
              else Ok (Fin 0)) ;;
       Ok (Some {| dcf_vs_current := v1;
                   upside_downside_multiple := v2;
                   fcf_yield := v3;
                   price_to_fcf := v4 |}))%result
  end.

(* ===================================================================== *)
(** ** The historical growth rate ([src/utils/data_fetch.py]) *)
(* ===================================================================== *)

(** Python's built-in [min(a, b)] and [max(a, b)] on numbers. *)
Definition py_min_Q (a b : Q) : Q := if Qltb b a then b else a.
Definition py_max_Q (a b : Q) : Q := if Qltb a b then b else a.

(** The loop of lines 227-231 of [_calculate_growth_rate]: one growth rate
    per pair of consecutive values whose first is not zero. *)
Fixpoint growth_steps (valid_data : list Q) : list Q :=
  match valid_data with
  | [] => []
  | prev :: rest =>
      match rest with
      | [] => []
      | cur :: _ =>
          ((if Qeq_bool prev 0 then []
            else [((cur - prev) / Qabs prev)%Q])
           ++ growth_steps rest)%list
      end
  end.

Definition _calculate_growth_rate (fcf_data : list Q) : Q :=
  if (length fcf_data <? 2)%nat then 0%Q
  else
    let valid_data := filter (fun x => Qltb 0 x) fcf_data in
    if (length valid_data <? 2)%nat then 0%Q
    else
      let growth_rates := growth_steps valid_data in
      match growth_rates with
      | [] => 0%Q
      | _ :: _ =>
          let avg_growth :=
            (fold_left Qplus growth_rates 0
             / inject_Z (Z.of_nat (length growth_rates)))%Q in
          py_max_Q (-0.5) (py_min_Q 0.5 avg_growth)
      end.

(* ===================================================================== *)
(** ** The analysis endpoint ([src/backend/main.py]) *)
(* ===================================================================== *)

Record StockAnalysisRequest : Type := {
  rq_growth_rate : option float;
  rq_discount_rate : option float;
  rq_terminal_growth : option float
}.

(** The three validators of [StockAnalysisRequest]; like the tests of
    [_validate_inputs], each is false on [nan]. *)
Definition validate_growth_rate (v : option float) : result (option float) :=
  match v with
  | Some x =>
      if (fltb x (Fin (-0.5)) || fgtb x (Fin 2))%bool
      then Raise (ValueError "Growth rate must be between -50% and 200%")
      else Ok v
  | None => Ok v
  end.

Definition validate_discount_rate (v : option float)
  : result (option float) :=
  match v with
  | Some x =>
      if (fleb x (Fin 0) || fgtb x (Fin 0.5))%bool
      then Raise (ValueError "Discount rate must be between 0% and 50%")
      else Ok v
  | None => Ok v
  end.

Definition validate_terminal_growth (v : option float)
  : result (option float) :=
  match v with
  | Some x =>
      if (fltb x (Fin 0) || fgtb x (Fin 0.1))%bool
      then Raise
             (ValueError "Terminal growth rate must be between 0% and 10%")
      else Ok v
  | None => Ok v
  end.

(** A request that the three validators let through. *)
Definition request_accepted (rq : StockAnalysisRequest) : Prop :=
  validate_growth_rate (rq_growth_rate rq) = Ok (rq_growth_rate rq) /\
  validate_discount_rate (rq_discount_rate rq) = Ok (rq_discount_rate rq) /\
  validate_terminal_growth (rq_terminal_growth rq)
  = Ok (rq_terminal_growth rq).

(** [x or d] on an optional number: [None] and 0.0 are both false, [nan]
    is true. *)
Definition py_or (x : option float) (d : float) : float :=
  match x with
  | Some v => if truthy v then v else d
  | None => d
  end.

(** The two keys of the fetched stock data that [analyze_stock] reads. *)
Record StockData : Type := {
  sd_fcf_data : option (list float);
  sd_shares_outstanding : option float
}.

(** What [data_fetcher.get_stock_data] did: raised, returned nothing (or
    an empty dictionary), or returned data. *)
Inductive fetched : Type :=
| FetchRaised
| FetchNothing
| FetchData (d : StockData).

(** What the handler does: it returns the analysis dictionary, or raises
    [HTTPException(status_code, detail)]. *)
Inductive endpoint_outcome : Type :=
| Returned (ticker : string) (stock_data : StockData)
           (dcf_results : ValuationResult)
| HTTPException (status_code : Z) (detail : string).

(** The two keys [analyze_stock] reads of the dictionary that the live
    path of [get_stock_data] builds (lines 123-137 of
    [src/utils/data_fetch.py]) and returns without assigning them again. *)
Definition live_stock_data : StockData :=
  {| sd_fcf_data := Some [Fin 0; Fin 0; Fin 0; Fin 0];
     sd_shares_outstanding := Some (Fin 0) |}.

(** A request body that asks for a terminal growth of zero. *)
Definition zero_terminal_request : StockAnalysisRequest :=
  {| rq_growth_rate := Some (Fin 0.08);
     rq_discount_rate := Some (Fin 0.12);
     rq_terminal_growth := Some (Fin 0) |}.

(** The arguments [analyze_stock] calls the calculator with; the others
    are the defaults of [calculate_dcf_valuation]. *)
Definition analysis_inputs (d : StockData) (rq : StockAnalysisRequest)
  : Inputs :=
  {| fcf_history :=
       match sd_fcf_data d with Some h => h | None => [] end;
     fcf_growth_rate := py_or (rq_growth_rate rq) (Fin 0.05);
     wacc := py_or (rq_discount_rate rq) (Fin 0.10);
     terminal_growth := py_or (rq_terminal_growth rq) (Fin 0.03);
     shares_outstanding :=
       match sd_shares_outstanding d with
       | Some sh => sh
       | None => Fin 1000000000
       end;
     monte_carlo_runs := 1000;
     years := 5;
     bridge := None;
     annual_share_change := Fin 0;
     treat_sbc_as_cash_cost := true;
     sbc_percent_of_fcf := Fin 0;
     real_mode := false;
     inflation := Fin 0.03;
     recession_prob := Fin 0.15 |}.

(** [analyze_stock]: 404 without stock data, 500 on any other exception
    (a missing request body included), the dictionary with the valuation
    otherwise.
    The path pattern admits upper-case tickers only, on which [upper()] is
    the identity. *)
Definition analyze_stock (np : Numpy) (ticker : string) (stock_data : fetched)
    (request : option StockAnalysisRequest) (s : rng_state np)
  : endpoint_outcome * rng_state np :=
  match stock_data with
  | FetchRaised => (HTTPException 500 "Internal server error occurred", s)
  | FetchNothing =>
      (HTTPException 404 ("No data found for ticker: " ++ ticker), s)
  | FetchData d =>
      match request with
      | None => (HTTPException 500 "Internal server error occurred", s)
      | Some rq =>
          match calculate_dcf_valuation np (analysis_inputs d rq) s with
          | (Ok r, s') => (Returned ticker d r, s')
          | (Raise _, s') =>
              (HTTPException 500 "Internal server error occurred", s')
          end
      end
  end.

(* ===================================================================== *)
(** ** The interpolated statistics in binary64

    The mean, the median of an even count and the percentiles are the
    statistics of [_summarize_mc] that add, subtract, multiply or divide
    the entries; numpy computes them in binary64.  The fragment below
    evaluates them on the kernel's primitive floats, which are binary64
    with rounding to nearest. *)
(* ===================================================================== *)

Module Binary64.

Definition of_nat64 (n : nat) : PrimFloat.float :=
  PrimFloat.of_uint63 (Uint63.of_Z (Z.of_nat n)).

(** [np.mean] of a short array: the entries added in order, divided by
    their count. *)
Definition np_mean (a : list PrimFloat.float) : PrimFloat.float :=
  PrimFloat.div (fold_left PrimFloat.add a PrimFloat.zero)
                (of_nat64 (length a)).



(** [np.max] of an array of numbers. *)
Definition np_max (x : PrimFloat.float) (a : list PrimFloat.float)
  : PrimFloat.float :=
  fold_left (fun m y => if PrimFloat.ltb m y then y else m) a x.



End Binary64.

(* ===================================================================== *)
(** ** Vocabulary of the properties *)
(* ===================================================================== *)

(** The three errors [_validate_inputs] raises. *)
Definition validation_error (e : exn) : Prop :=
  e = ValueError msg_years \/ e = ValueError msg_wacc
  \/ e = ValueError msg_negative.

(** The condition under which the specification says a call is refused. *)
Definition rejected (a : Inputs) : Prop :=
  (years a < 3)%Z \/ (years a > 10)%Z \/
  fle (wacc a) (terminal_growth a) \/ flt (wacc a) (Fin 0) \/
  flt (terminal_growth a) (Fin 0).

(** The division of [_terminal_value] is safe: its guard is not taken, or
    it is taken on a WACC that [wacc - 1e-6] does not round back to. *)
Definition terminal_safe (w t : float) : bool :=
  (negb (fleb w t)
   || match w with Fin q => negb (absorbs_1e6 q) | _ => true end)%bool.

(** The errors of the stages after validation. *)
Definition later_error (e : exn) : Prop :=
  e = IndexError \/ e = ZeroDivisionError \/ e = TypeError \/
  e = AttributeError \/
  e = ValueError "negative dimensions are not allowed".

(** The five arrays of a sample all have [n] entries. *)
Definition trials_of_size (n : nat) (tr : Trials) : Prop :=
  length (mc_recession tr) = n /\ length (mc_g tr) = n /\
  length (mc_w tr) = n /\ length (mc_tg tr) = n /\
  length (mc_base_draw tr) = n.

(** The projected share count of a call at the end of the horizon. *)
Definition end_shares (a : Inputs) : float :=
  _shares_path (shares_outstanding a) (annual_share_change a)
               (Z.to_nat (years a)).

(** The base case of a call, as a function of its arguments. *)
Definition base_case_of (a : Inputs) : result BaseCase :=
  _base_case_breakdown (resolved_base_fcf a) (g_nom a) (wacc_nom a)
    (tg_nom a) (Z.to_nat (years a)) (shares_outstanding a)
    (annual_share_change a) (resolved_bridge a).



(** The WACC of the scenarios recorded in the outcome of a call. *)
Definition sampled_waccs (o : result ValuationResult) : list float :=
  match o with
  | Ok r => map d_wacc (mc_sample_scenarios r)
  | Raise _ => []
  end.

(** [x] is a number within the relative tolerance [tol] of [expected]. *)
Definition within (tol expected : Q) (x : float) : Prop :=
  match x with
  | Fin q => Qabs (q - expected) <= tol * Qabs expected
  | _ => False
  end.




(** A value that is not [nan]: a number or an infinity. *)
Definition not_nan (x : float) : Prop := isnan x = false.

(** The rational behind a finite value. *)
Definition to_Q (x : float) : Q :=
  match x with
  | Fin q => q
  | _ => 0
  end.

(** The sum of a list of rationals. *)
Definition Qsum (l : list Q) : Q := fold_right Qplus 0 l.

(** Scenario A with no share outstanding and a single Monte Carlo run. *)
Definition zero_shares : Inputs :=
  {| fcf_history := [Fin 100; Fin 110; Fin 121; Fin 133.1];
     fcf_growth_rate := Fin 0.05;
     wacc := Fin 0.10;
     terminal_growth := Fin 0.03;
     shares_outstanding := Fin 0;
     monte_carlo_runs := 1;
     years := 5;
     bridge := None;
     annual_share_change := Fin 0;
     treat_sbc_as_cash_cost := true;
     sbc_percent_of_fcf := Fin 0;
     real_mode := false;
     inflation := Fin 0.03;
     recession_prob := Fin 0.15 |}.

(** Scenario A with the whole base FCF treated as stock compensation. *)
Definition sbc_full : Inputs :=
  {| fcf_history := [Fin 100; Fin 110; Fin 121; Fin 133.1];
     fcf_growth_rate := Fin 0.05;
     wacc := Fin 0.10;
     terminal_growth := Fin 0.03;
     shares_outstanding := Fin 1000;
     monte_carlo_runs := 4;
     years := 5;
     bridge := None;
     annual_share_change := Fin 0;
     treat_sbc_as_cash_cost := true;
     sbc_percent_of_fcf := Fin 1;
     real_mode := false;
     inflation := Fin 0.03;
     recession_prob := Fin 0.15 |}.

(** Scenario A with a fifth of the base FCF treated as stock
    compensation. *)
Definition sbc_partial : Inputs :=
  {| fcf_history := [Fin 100; Fin 110; Fin 121; Fin 133.1];
     fcf_growth_rate := Fin 0.05;
     wacc := Fin 0.10;
     terminal_growth := Fin 0.03;
     shares_outstanding := Fin 1000;
     monte_carlo_runs := 4;
     years := 5;
     bridge := None;
     annual_share_change := Fin 0;
     treat_sbc_as_cash_cost := true;
     sbc_percent_of_fcf := Fin 0.2;
     real_mode := false;
     inflation := Fin 0.03;
     recession_prob := Fin 0.15 |}.

(** Scenario A with a stock-compensation percentage of [nan]. *)
Definition sbc_nan : Inputs :=
  {| fcf_history := [Fin 100; Fin 110; Fin 121; Fin 133.1];
     fcf_growth_rate := Fin 0.05;
     wacc := Fin 0.10;
     terminal_growth := Fin 0.03;
     shares_outstanding := Fin 1000;
     monte_carlo_runs := 4;
     years := 5;
     bridge := None;
     annual_share_change := Fin 0;
     treat_sbc_as_cash_cost := true;
     sbc_percent_of_fcf := NaN;
     real_mode := false;
     inflation := Fin 0.03;
     recession_prob := Fin 0.15 |}.


(** Scenario A with a recession probability of 1. *)
Definition recession_call : Inputs :=
  {| fcf_history := [Fin 100; Fin 110; Fin 121; Fin 133.1];
     fcf_growth_rate := Fin 0.05;
     wacc := Fin 0.10;
     terminal_growth := Fin 0.03;
     shares_outstanding := Fin 1000;
     monte_carlo_runs := 4;
     years := 5;
     bridge := None;
     annual_share_change := Fin 0;
     treat_sbc_as_cash_cost := true;
     sbc_percent_of_fcf := Fin 0;
     real_mode := false;
     inflation := Fin 0.03;
     recession_prob := Fin 1 |}.


(** A short call: one year of history, a horizon of three years and a
    single Monte Carlo run. *)
Definition short_call : Inputs :=
  {| fcf_history := [Fin 100];
     fcf_growth_rate := Fin 0.05;
     wacc := Fin 0.10;
     terminal_growth := Fin 0.03;
     shares_outstanding := Fin 1000;
     monte_carlo_runs := 1;
     years := 3;
     bridge := None;
     annual_share_change := Fin 0;
     treat_sbc_as_cash_cost := true;
     sbc_percent_of_fcf := Fin 0;
     real_mode := false;
     inflation := Fin 0.03;
     recession_prob := Fin 0.15 |}.


(** Scenario A in real terms under a deflation of 200%. *)
Definition deflation_call : Inputs :=
  {| fcf_history := [Fin 100; Fin 110; Fin 121; Fin 133.1];
     fcf_growth_rate := Fin 0.05;
     wacc := Fin 0.10;
     terminal_growth := Fin 0.03;
     shares_outstanding := Fin 1000;
     monte_carlo_runs := 4;
     years := 5;
     bridge := None;
     annual_share_change := Fin 0;
     treat_sbc_as_cash_cost := true;
     sbc_percent_of_fcf := Fin 0;
     real_mode := true;
     inflation := Fin (-2);
     recession_prob := Fin 0.15 |}.

(** A sampled growth rate within the bounds of line 262. *)
Definition growth_bounded (g : float) : Prop :=
  exists q : Q, g = Fin q /\ -0.30 <= q /\ q <= 0.40.



(* ===================================================================== *)
(** ** Comparisons and finite values *)
(* ===================================================================== *)

Lemma Qltb_lt (a b : Q) : Qltb a b = true <-> a < b.
Proof.
  unfold Qltb. rewrite negb_true_iff, <- not_true_iff_false, Qle_bool_iff.
  split; intros H; [apply Qnot_le_lt, H | apply Qlt_not_le, H].
Qed.

Lemma Qltb_ge (a b : Q) : Qltb a b = false <-> b <= a.
Proof.
  unfold Qltb. rewrite negb_false_iff. apply Qle_bool_iff.
Qed.

Lemma Qle_bool_gt (a b : Q) : Qle_bool a b = false <-> b < a.
Proof.
  rewrite <- not_true_iff_false, Qle_bool_iff.
  split; intros H; [apply Qnot_le_lt, H | apply Qlt_not_le, H].
Qed.

Lemma Qeq_bool_false (a b : Q) : Qeq_bool a b = false <-> ~ a == b.
Proof.
  rewrite <- not_true_iff_false, Qeq_bool_iff. tauto.
Qed.

(** Case analysis on a boolean comparison of rationals, leaving the
    arithmetic fact in the context. *)
Ltac qcases :=
  repeat match goal with
  | |- context [Qltb ?a ?b] =>
      let E := fresh "E" in
      destruct (Qltb a b) eqn:E;
      [apply Qltb_lt in E | apply Qltb_ge in E]
  | |- context [Qle_bool ?a ?b] =>
      let E := fresh "E" in
      destruct (Qle_bool a b) eqn:E;
      [apply Qle_bool_iff in E | apply Qle_bool_gt in E]
  | |- context [Qeq_bool ?a ?b] =>
      let E := fresh "E" in
      destruct (Qeq_bool a b) eqn:E;
      [apply Qeq_bool_iff in E | apply Qeq_bool_false in E]
  end.

Lemma fle_Fin_iff (a b : Q) : fle (Fin a) (Fin b) <-> a <= b.
Proof.
  unfold fle. cbn [fleb]. apply Qle_bool_iff.
Qed.

Lemma fle_trans (x y z : float) : fle x y -> fle y z -> fle x z.
Proof.
  unfold fle. destruct x, y, z; cbn [fleb];
    try discriminate; try reflexivity.
  rewrite !Qle_bool_iff. apply Qle_trans.
Qed.

Lemma fle_refl (x : float) : isnan x = false -> fle x x.
Proof.
  unfold fle. destruct x; cbn [fleb isnan];
    try discriminate; try reflexivity.
  intros _. apply Qle_bool_iff, Qle_refl.
Qed.

Lemma flt_fle (x y : float) : flt x y -> fle x y.
Proof.
  unfold flt, fle. destruct x, y; cbn [fltb fleb];
    try discriminate; try reflexivity.
  rewrite Qltb_lt, Qle_bool_iff. apply Qlt_le_weak.
Qed.

Lemma flt_notnan (x y : float) :
  flt x y -> isnan x = false /\ isnan y = false.
Proof.
  unfold flt. destruct x, y; cbn [fltb isnan]; try discriminate; auto.
Qed.

Lemma fltb_false_fle (x y : float) :
  isnan x = false -> isnan y = false -> fltb x y = false -> fle y x.
Proof.
  unfold fle. destruct x, y; cbn [fltb fleb isnan];
    try discriminate; try reflexivity.
  intros _ _. rewrite Qltb_ge, Qle_bool_iff. auto.
Qed.

(* ===================================================================== *)
(** ** Validation *)
(* ===================================================================== *)

Lemma validate_raises (w t : float) (y : Z) (e : exn) :
  _validate_inputs w t y = Raise e -> validation_error e.
Proof.
  unfold _validate_inputs, validation_error.
  destruct (_ || _)%bool; [intros [= <-]; auto|].
  destruct (fleb w t); [intros [= <-]; auto|].
  destruct (_ || _)%bool; [intros [= <-]; auto | discriminate].
Qed.

Lemma validate_rejects (w t : float) (y : Z) :
  (exists e, _validate_inputs w t y = Raise e) <->
  ((y < 3)%Z \/ (y > 10)%Z \/ fle w t \/ flt w (Fin 0) \/ flt t (Fin 0)).
Proof.
  unfold _validate_inputs, fle, flt.
  destruct (y <? 3)%Z eqn:E1; [apply Z.ltb_lt in E1 | apply Z.ltb_ge in E1];
    simpl; [split; eauto|].
  destruct (y >? 10)%Z eqn:E2; rewrite Z.gtb_ltb in E2;
    [apply Z.ltb_lt in E2 | apply Z.ltb_ge in E2];
    [split; [right; left; lia | eauto]|].
  destruct (fleb w t); [split; [tauto | eauto]|].
  destruct (fltb w (Fin 0)); simpl; [split; [tauto | eauto]|].
  destruct (fltb t (Fin 0)); simpl; [split; [tauto | eauto]|].
  split; [intros [e He]; discriminate|].
  intros [H|[H|[H|[H|H]]]]; try lia; discriminate.
Qed.

Lemma validate_ok (w t : float) (y : Z) :
  _validate_inputs w t y = Ok tt <->
  ((3 <= y <= 10)%Z /\ fleb w t = false /\ fltb w (Fin 0) = false /\
   fltb t (Fin 0) = false).
Proof.
  unfold _validate_inputs.
  destruct (y <? 3)%Z eqn:E1; [apply Z.ltb_lt in E1 | apply Z.ltb_ge in E1];
    simpl; [split; [discriminate | lia]|].
  destruct (y >? 10)%Z eqn:E2; rewrite Z.gtb_ltb in E2;
    [apply Z.ltb_lt in E2 | apply Z.ltb_ge in E2];
    [split; [discriminate | lia]|].
  destruct (fleb w t); [split; [discriminate | intuition discriminate]|].
  destruct (fltb w (Fin 0)); simpl;
    [split; [discriminate | intuition discriminate]|].
  destruct (fltb t (Fin 0)); simpl;
    [split; [discriminate | intuition discriminate]|].
  split; [intros _; repeat split; lia | reflexivity].
Qed.

(** On rates that are numbers the three tests are the usual ones. *)
Lemma validate_ok_Fin (w t : Q) (y : Z) :
  _validate_inputs (Fin w) (Fin t) y = Ok tt <->
  ((3 <= y <= 10)%Z /\ t < w /\ 0 <= w /\ 0 <= t).
Proof.
  rewrite validate_ok. cbn [fleb fltb].
  rewrite Qle_bool_gt, !Qltb_ge. tauto.
Qed.

(* ===================================================================== *)
(** ** Which errors the stages of a call can raise *)
(* ===================================================================== *)

Lemma later_error_not_validation (e : exn) :
  later_error e -> ~ validation_error e.
Proof.
  unfold later_error, validation_error, msg_years, msg_wacc, msg_negative.
  intros [->|[->|[->|[->| ->]]]] [H|[H|H]]; discriminate.
Qed.

Lemma index_raises {A : Type} (l : list A) (i : nat) (e : exn) :
  index l i = Raise e -> e = IndexError.
Proof.
  unfold index. destruct (nth_error l i); [discriminate | now intros [= <-]].
Qed.

Lemma getitem_raises (v : pyvalue) (i : nat) (e : exn) :
  getitem v i = Raise e -> e = IndexError \/ e = TypeError.
Proof.
  destruct v as [l|x]; simpl.
  - destruct (nth_error l i); [discriminate | intros [= <-]; now left].
  - intros [= <-]; now right.
Qed.

Lemma rbind_raise_inv {A B : Type} (c : result A) (k : A -> result B) (e : exn) :
  rbind c k = Raise e ->
  c = Raise e \/ exists a, c = Ok a /\ k a = Raise e.
Proof.
  destruct c as [a|e']; simpl; [right; eauto | intros [= <-]; now left].
Qed.

Lemma rbind_ok_inv {A B : Type} (c : result A) (k : A -> result B) (b : B) :
  rbind c k = Ok b -> exists a, c = Ok a /\ k a = Ok b.
Proof.
  destruct c as [a|e']; simpl; [eauto | discriminate].
Qed.

Lemma for_each_raises {A B : Type} (P : exn -> Prop) (f : A -> result B)
    (l : list A) (e : exn) :
  (forall x e', f x = Raise e' -> P e') ->
  for_each f l = Raise e -> P e.
Proof.
  intros Hf. induction l as [|x l IH]; simpl; [discriminate|].
  intros H. apply rbind_raise_inv in H as [H|(y & Hy & H)]; [eauto|].
  apply rbind_raise_inv in H as [H|(ys & Hys & H)]; [auto | discriminate].
Qed.

Lemma terminal_value_raises (f w t : float) (e : exn) :
  _terminal_value f w t = Raise e -> e = ZeroDivisionError.
Proof.
  unfold _terminal_value, py_truediv.
  destruct (fsub w _) as [b| | |]; try discriminate.
  destruct (Qeq_bool b 0); [now intros [= <-] | discriminate].
Qed.

Lemma base_case_raises (f g w t : float) (y : nat) (sh ch : float)
    (br : CapitalBridge) (e : exn) :
  _base_case_breakdown f g w t y sh ch br = Raise e -> later_error e.
Proof.
  unfold _base_case_breakdown, later_error. intros H.
  apply rbind_raise_inv in H as [H|(x & Hx & H)].
  - unfold last_item in H. destruct (rev _); [|discriminate].
    injection H as <-. auto.
  - apply rbind_raise_inv in H as [H|(tv & Htv & H)]; [|discriminate].
    apply terminal_value_raises in H. auto.
Qed.

Section MonadFacts.

Variable np : Numpy.

Lemma mbind_ok_inv {A B : Type} (c : M np A) (k : A -> M np B) s b s2 :
  mbind np c k s = (Ok b, s2) ->
  exists a s1, c s = (Ok a, s1) /\ k a s1 = (Ok b, s2).
Proof.
  unfold mbind. destruct (c s) as [[a|e] s1]; [eauto | discriminate].
Qed.

Lemma mbind_raise_inv {A B : Type} (c : M np A) (k : A -> M np B) s e :
  fst (mbind np c k s) = Raise e ->
  fst (c s) = Raise e \/
  exists a s1, c s = (Ok a, s1) /\ fst (k a s1) = Raise e.
Proof.
  unfold mbind. destruct (c s) as [[a|e'] s1]; simpl; intros H.
  - right. exists a, s1. split; [reflexivity | exact H].
  - left. now injection H as ->.
Qed.

(** Sampling never raises. *)
Lemma sample_trials_ok (bf bg bw bt : float) (n : nat) (rp : float) s :
  exists tr, sample_trials np bf bg bw bt n rp s
             = (Ok tr, snd (sample_trials np bf bg bw bt n rp s)).
Proof.
  unfold sample_trials, mbind, rand, normal, standard_t, mret; simpl.
  eexists; reflexivity.
Qed.

Lemma value_trials_raises tr y sh ch br e :
  value_trials tr y sh ch br = Raise e -> e = IndexError.
Proof.
  unfold value_trials. intros H.
  apply rbind_raise_inv in H as [H|(x & Hx & H)]; [|discriminate].
  destruct (Nat.eqb y 0); [now injection H as <- | discriminate].
Qed.

Lemma detail_of_raises tr ev ps i e :
  detail_of tr ev ps i = Raise e -> e = IndexError \/ e = TypeError.
Proof.
  unfold detail_of. intros H.
  repeat (apply rbind_raise_inv in H as [H|(? & _ & H)];
          [first [apply index_raises in H; now left
                 | now apply getitem_raises in H] |]).
  discriminate.
Qed.

Lemma monte_carlo_raises bf bg bw bt y sh ch br n rp s e :
  fst (_monte_carlo_vectorized np bf bg bw bt y sh ch br n rp s) = Raise e ->
  later_error e.
Proof.
  unfold _monte_carlo_vectorized, later_error.
  destruct (n <? 0)%Z; [simpl; intros [= <-]; auto 6|].
  intros H.
  apply mbind_raise_inv in H as [H|(tr & s1 & _ & H)].
  { destruct (sample_trials_ok bf bg bw bt (Z.to_nat n) rp s) as [tr Htr].
    rewrite Htr in H. discriminate. }
  apply mbind_raise_inv in H as [H|(vals & s2 & _ & H)].
  { apply value_trials_raises in H. auto. }
  apply mbind_raise_inv in H as [H|(idx & s3 & _ & H)]; [discriminate|].
  apply mbind_raise_inv in H as [H|(d & s4 & _ & H)]; [|discriminate].
  simpl in H.
  apply (for_each_raises (fun e => e = IndexError \/ e = TypeError)) in H.
  - destruct H as [->| ->]; auto.
  - intros x e'. apply detail_of_raises.
Qed.

(** A refused call stops at the validation: it returns the error and the
    generator as it found it. *)
Lemma calculate_refused a s e :
  _validate_inputs (wacc a) (terminal_growth a) (years a) = Raise e ->
  calculate_dcf_valuation np a s = (Raise e, s).
Proof.
  intros H. unfold calculate_dcf_valuation, mbind, lift. now rewrite H.
Qed.

(** What an accepted call that raises went through. *)
Lemma calculate_accepted_raises a s e :
  _validate_inputs (wacc a) (terminal_growth a) (years a) = Ok tt ->
  fst (calculate_dcf_valuation np a s) = Raise e -> later_error e.
Proof.
  intros Hv H. unfold calculate_dcf_valuation in H.
  apply mbind_raise_inv in H as [H|(u & s1 & _ & H)].
  { simpl in H. congruence. }
  apply mbind_raise_inv in H as [H|(b & s2 & _ & H)].
  { simpl in H. now apply base_case_raises in H. }
  apply mbind_raise_inv in H as [H|(mc & s3 & _ & H)].
  { now apply monte_carlo_raises in H. }
  apply mbind_raise_inv in H as [H|(sm & s4 & _ & H)]; [|discriminate].
  simpl in H. unfold _summarize_mc in H.
  destruct (fst mc); [discriminate|]. injection H as <-.
  unfold later_error; auto 6.
Qed.

(** What a call that returns went through. *)
Lemma calculate_ok_inv a s r s' :
  calculate_dcf_valuation np a s = (Ok r, s') ->
  _validate_inputs (wacc a) (terminal_growth a) (years a) = Ok tt /\
  exists b mc sm,
    _base_case_breakdown (resolved_base_fcf a) (g_nom a)
      (wacc_nom a) (tg_nom a) (Z.to_nat (years a))
      (shares_outstanding a) (annual_share_change a)
      (resolved_bridge a) = Ok b /\
    _monte_carlo_vectorized np (resolved_base_fcf a) (g_nom a)
      (wacc_nom a) (tg_nom a) (Z.to_nat (years a))
      (shares_outstanding a) (annual_share_change a)
      (resolved_bridge a) (monte_carlo_runs a) (recession_prob a) s
    = (Ok mc, s') /\
    _summarize_mc np (fst mc) = Ok sm /\
    base_case r = b /\ monte_carlo r = sm /\
    diagnostics r = _diagnostics b (wacc_nom a) (tg_nom a)
                                 (Z.to_nat (years a)) /\
    a_base_fcf (assumptions r) = resolved_base_fcf a /\
    a_wacc (assumptions r) = wacc_nom a /\
    a_terminal_growth (assumptions r) = tg_nom a /\
    mc_sample_scenarios r = firstn 10 (snd mc).
Proof.
  unfold calculate_dcf_valuation. intros H.
  apply mbind_ok_inv in H as ([] & s1 & Hv & H).
  unfold lift in Hv. injection Hv as Hv <-.
  apply mbind_ok_inv in H as (b & s2 & Hb & H).
  unfold lift in Hb. injection Hb as Hb <-.
  apply mbind_ok_inv in H as (mc & s3 & Hmc & H).
  apply mbind_ok_inv in H as (sm & s4 & Hsm & H).
  unfold lift in Hsm. injection Hsm as Hsm <-.
  unfold mret in H. injection H as <- <-.
  split; [exact Hv|]. exists b, mc, sm. simpl. tauto.
Qed.

End MonadFacts.

(* ===================================================================== *)
(** ** Claims on the input normaliser *)
(* ===================================================================== *)

(** C3.  [calculate_dcf_valuation] raises a validation error exactly when
    the horizon is outside [3, 10], or WACC <= terminal growth, or one of
    the two rates is negative; it then raises it with the generator still
    untouched, that is before any base-case or Monte Carlo work.  Horizons
    2 and 11 and a WACC equal to the terminal growth are refused; horizons
    3 and 10 are accepted whenever the two rates are. *)
Theorem validation_gate (np : Numpy) (a : Inputs) (s : rng_state np) :
  ((exists e, validation_error e /\
              fst (calculate_dcf_valuation np a s) = Raise e)
   <-> rejected a)
  /\ ((exists e, validation_error e /\
                 calculate_dcf_valuation np a s = (Raise e, s))
      <-> rejected a)
  /\ (forall w t, _validate_inputs w t 2 = Raise (ValueError msg_years)
               /\ _validate_inputs w t 11 = Raise (ValueError msg_years))
  /\ (forall w y, isnan w = false ->
                  exists e, validation_error e /\
                            _validate_inputs w w y = Raise e)
  /\ (forall w t : Q,
        (_validate_inputs (Fin w) (Fin t) 3 = Ok tt <-> (t < w /\ 0 <= t))
        /\ (_validate_inputs (Fin w) (Fin t) 10 = Ok tt
            <-> (t < w /\ 0 <= t))).
Proof.
  assert (Hrej : rejected a ->
            exists e, validation_error e /\
                      calculate_dcf_valuation np a s = (Raise e, s)).
  { intros H.
    apply (validate_rejects (wacc a) (terminal_growth a) (years a)) in H
      as [e He].
    exists e. split; [eapply validate_raises, He | now apply calculate_refused]. }
  assert (Hacc : forall e, validation_error e ->
            fst (calculate_dcf_valuation np a s) = Raise e -> rejected a).
  { intros e Hve He.
    destruct (_validate_inputs (wacc a) (terminal_growth a) (years a))
      as [[]|e'] eqn:Hv.
    - exfalso. eapply later_error_not_validation; [|exact Hve].
      eapply calculate_accepted_raises; eauto.
    - apply (validate_rejects (wacc a) (terminal_growth a) (years a)). eauto. }
  split; [|split; [|split; [|split]]].
  - split.
    + intros (e & Hve & He). eauto.
    + intros H. destruct (Hrej H) as (e & Hve & He).
      exists e. split; [exact Hve | now rewrite He].
  - split.
    + intros (e & Hve & He). apply (Hacc e Hve). now rewrite He.
    + exact Hrej.
  - intros w t. split; reflexivity.
  - intros w y Hw.
    destruct (_validate_inputs w w y) as [[]|e] eqn:E.
    + apply validate_ok in E as (_ & E & _). exfalso.
      pose proof (fle_refl w Hw) as H. unfold fle in H. congruence.
    + exists e. split; [eapply validate_raises; eauto | reflexivity].
  - intros w t. split; rewrite validate_ok_Fin; split; intros H;
      try (repeat split; try lia; lra); tauto.
Qed.

(** [py_max] over values that are not [nan] returns an element of the list
    that bounds all of them. *)
Lemma py_max_spec (l : list float) (x : float) :
  Forall (fun y => isnan y = false) (x :: l) ->
  In (py_max x l) (x :: l) /\ forall y, In y (x :: l) -> fle y (py_max x l).
Proof.
  unfold py_max. revert x. induction l as [|z l IH]; intros x Hn; simpl.
  - split; [now left|]. intros y [<-|[]]. apply fle_refl.
    now inversion Hn.
  - inversion Hn as [|? ? Hx Hzl]; subst.
    inversion Hzl as [|? ? Hz Hl]; subst.
    assert (Hm : isnan (if fgtb z x then z else x) = false)
      by (destruct (fgtb z x); assumption).
    destruct (IH (if fgtb z x then z else x)) as [Hin Hmax];
      [now constructor|].
    split.
    + destruct Hin as [Hin|Hin]; [|now right; right].
      rewrite <- Hin. destruct (fgtb z x); [right; now left | now left].
    + intros y Hy.
      assert (Hstep : fle x (if fgtb z x then z else x)
                      /\ fle z (if fgtb z x then z else x)).
      { unfold fgtb. destruct (fltb x z) eqn:E.
        - split; [now apply flt_fle | now apply fle_refl].
        - split; [now apply fle_refl | now apply fltb_false_fle]. }
      destruct Hy as [<-|[<-|Hy]].
      * eapply fle_trans; [apply Hstep | apply Hmax; now left].
      * eapply fle_trans; [apply Hstep | apply Hmax; now left].
      * apply Hmax. now right.
Qed.

Lemma pick_base_fcf_snoc (h : list float) (x : float) :
  _pick_base_fcf (h ++ [x]) =
  if fgtb x (Fin 0) then x
  else match filter (fun y => fgtb y (Fin 0)) h with
       | [] => default_fcf
       | p :: positives => py_max p positives
       end.
Proof.
  unfold _pick_base_fcf. rewrite rev_app_distr. cbn [rev app].
  destruct (fgtb x (Fin 0)) eqn:E; [reflexivity|].
  rewrite filter_app. cbn [filter]. rewrite E, app_nil_r. reflexivity.
Qed.

(** The positive values of a history: what the fall-back of
    [_pick_base_fcf] takes its maximum over. *)
Lemma positives_spec (h : list float) (y : float) :
  In y (filter (fun y => fgtb y (Fin 0)) h) <-> In y h /\ flt (Fin 0) y.
Proof.
  rewrite filter_In. unfold fgtb, flt. tauto.
Qed.

Lemma positives_notnan (h : list float) :
  Forall (fun y => isnan y = false) (filter (fun y => fgtb y (Fin 0)) h).
Proof.
  apply Forall_forall. intros y Hy. apply positives_spec in Hy as [_ Hy].
  now apply flt_notnan in Hy.
Qed.

(** C7.  The selected base FCF is exactly 1,000,000,000 for an empty
    history; otherwise the last element when it is positive; otherwise the
    maximum positive value of the history; otherwise 1,000,000,000 when the
    history has no positive value.  The values of a history are any
    floats, [nan] and the infinities included. *)
Theorem pick_base_fcf_cases :
  _pick_base_fcf [] = Fin 1000000000
  /\ (forall h x, flt (Fin 0) x -> _pick_base_fcf (h ++ [x]) = x)
  /\ (forall h x, ~ flt (Fin 0) x -> (exists p, In p h /\ flt (Fin 0) p) ->
        In (_pick_base_fcf (h ++ [x])) (h ++ [x])
        /\ flt (Fin 0) (_pick_base_fcf (h ++ [x]))
        /\ forall y, In y (h ++ [x]) -> flt (Fin 0) y ->
                     fle y (_pick_base_fcf (h ++ [x])))
  /\ (forall h x, ~ flt (Fin 0) x -> (forall p, In p h -> ~ flt (Fin 0) p) ->
        _pick_base_fcf (h ++ [x]) = Fin 1000000000).
Proof.
  split; [reflexivity|]. split; [|split].
  - intros h x Hx. rewrite pick_base_fcf_snoc.
    unfold fgtb. unfold flt in Hx. now rewrite Hx.
  - intros h x Hx (p & Hp & Hpos). rewrite pick_base_fcf_snoc.
    assert (Ex : fgtb x (Fin 0) = false).
    { unfold fgtb, flt in *. now destruct (fltb (Fin 0) x). }
    rewrite Ex.
    pose proof (positives_spec h) as Hf.
    pose proof (positives_notnan h) as Hn.
    destruct (filter (fun y => fgtb y (Fin 0)) h) as [|q qs] eqn:E.
    { exfalso. apply (Hf p). tauto. }
    destruct (py_max_spec qs q Hn) as [Hin Hmax].
    apply Hf in Hin. split; [apply in_or_app; tauto|]. split; [tauto|].
    intros y Hy Hy0. apply Hmax, Hf. split; [|exact Hy0].
    apply in_app_or in Hy as [Hy|[<-|[]]]; [exact Hy | contradiction].
  - intros h x Hx Hnone. rewrite pick_base_fcf_snoc.
    assert (Ex : fgtb x (Fin 0) = false).
    { unfold fgtb, flt in *. now destruct (fltb (Fin 0) x). }
    rewrite Ex.
    destruct (filter (fun y => fgtb y (Fin 0)) h) as [|q qs] eqn:E;
      [reflexivity|].
    exfalso. assert (In q (filter (fun y => fgtb y (Fin 0)) h)) as Hq
      by (rewrite E; now left).
    apply positives_spec in Hq as [Hq Hq0].
    exact (Hnone q Hq Hq0).
Qed.

(** The cases of C7 on histories whose last value is negative, positive
    or [nan]. *)
Lemma pick_base_fcf_cases_witness :
  (In (_pick_base_fcf ([Fin 120; Fin 80] ++ [Fin (-5)]))
      ([Fin 120; Fin 80] ++ [Fin (-5)])
   /\ fle (Fin 120) (_pick_base_fcf ([Fin 120; Fin 80] ++ [Fin (-5)])))
  /\ _pick_base_fcf ([Fin 100; Fin 110] ++ [Fin 133.1]) = Fin 133.1
  /\ _pick_base_fcf ([Fin (-3)] ++ [Fin (-5)]) = Fin 1000000000
  /\ fle PInf (_pick_base_fcf ([PInf; Fin 80] ++ [NaN])).
Proof.
  destruct pick_base_fcf_cases as (_ & Hlast & Hmax & Hnone).
  split; [|split; [|split]].
  - destruct (Hmax [Fin 120; Fin 80] (Fin (-5))) as (Hin & Hpos & Hub).
    + intros H. vm_compute in H. discriminate H.
    + exists (Fin 120). split; [now left | reflexivity].
    + split; [exact Hin | apply Hub; [now left | reflexivity]].
  - apply Hlast. reflexivity.
  - apply Hnone; [intros H; vm_compute in H; discriminate H|].
    intros p [<-|[]] H. vm_compute in H. discriminate H.
  - destruct (Hmax [PInf; Fin 80] NaN) as (_ & _ & Hub).
    + intros H. vm_compute in H. discriminate H.
    + exists PInf. split; [now left | reflexivity].
    + apply Hub; [now left | reflexivity].
Defined.

(* ===================================================================== *)
(** ** Shapes of the Monte Carlo arrays *)
(* ===================================================================== *)

Lemma length_vmap2 {A B C : Type} (f : A -> B -> C) (a : list A) (b : list B) :
  length (vmap2 f a b) = Nat.min (length a) (length b).
Proof.
  unfold vmap2. now rewrite length_map, length_combine.
Qed.

Lemma length_np_where {A : Type} (c : list bool) (a b : list A) :
  length (np_where c a b)
  = Nat.min (length c) (Nat.min (length a) (length b)).
Proof.
  unfold np_where. now rewrite length_vmap2, length_combine.
Qed.

Lemma index_ok {A : Type} (l : list A) (i : nat) :
  (i < length l)%nat -> exists x, index l i = Ok x /\ nth_error l i = Some x.
Proof.
  intros H. unfold index.
  destruct (nth_error l i) as [x|] eqn:E; [eauto|].
  apply nth_error_None in E. lia.
Qed.

Section Shapes.

Variable np : Numpy.

Lemma sample_trials_size (bf bg bw bt : float) (n : nat) (rp : float) s tr s' :
  sample_trials np bf bg bw bt n rp s = (Ok tr, s') -> trials_of_size n tr.
Proof.
  unfold sample_trials, mbind, rand, normal, standard_t, mret; simpl.
  intros [= <- _]. unfold trials_of_size; simpl.
  repeat rewrite ?length_map, ?length_vmap2, ?length_np_where,
    ?rand_size, ?standard_normal_size, ?standard_t_size, ?Nat.min_id.
  repeat split; reflexivity.
Qed.

(** The valuation stage on a sample of [n] trials: with a horizon of at
    least one year it returns [n] enterprise values, and either [n]
    per-share values or, when the projected share count is not positive,
    the bare float [nan]. *)
Lemma value_trials_shape tr n y sh ch br :
  trials_of_size n tr -> y <> O ->
  exists ev ps,
    value_trials tr y sh ch br = Ok (ev, ps) /\ length ev = n /\
    if fgtb (_shares_path sh ch y) (Fin 0)
    then exists l, ps = NdArray l /\ length l = n
    else ps = PyFloat NaN.
Proof.
  intros (Hr & Hg & Hw & Ht & Hb) Hy. unfold value_trials.
  apply Nat.eqb_neq in Hy. rewrite Hy. cbn [rbind].
  eexists; eexists. split; [reflexivity|].
  assert (Hmin : Nat.min n n = n) by apply Nat.min_id.
  split.
  - repeat rewrite ?length_vmap2, ?length_map.
    rewrite Hg, Hw, Ht, Hb. now rewrite !Hmin.
  - destruct (fgtb (_shares_path sh ch y) (Fin 0)); [|reflexivity].
    eexists. split; [reflexivity|].
    repeat rewrite ?length_vmap2, ?length_map.
    rewrite Hg, Hw, Ht, Hb. now rewrite !Hmin.
Qed.

(** The loop over the sampled indices with an array of per-share values. *)
Lemma details_total tr n ev l idx :
  trials_of_size n tr -> length ev = n -> length l = n ->
  (forall i, In i idx -> (i < n)%nat) ->
  exists ds, for_each (detail_of tr ev (NdArray l)) idx = Ok ds.
Proof.
  intros (Hr & Hg & Hw & Ht & Hb) Hev Hl.
  induction idx as [|i idx IH]; intros Hidx; simpl; [eauto|].
  assert (Hi : (i < n)%nat) by (apply Hidx; now left).
  destruct IH as [ds Hds]; [intros j Hj; apply Hidx; now right|].
  rewrite Hds. unfold detail_of, getitem.
  destruct (index_ok (mc_base_draw tr) i) as (x1 & -> & _); [lia|].
  destruct (index_ok (mc_g tr) i) as (x2 & -> & _); [lia|].
  destruct (index_ok (mc_w tr) i) as (x3 & -> & _); [lia|].
  destruct (index_ok (mc_tg tr) i) as (x4 & -> & _); [lia|].
  destruct (index_ok ev i) as (x5 & -> & _); [lia|].
  destruct (index_ok l i) as (x6 & _ & ->); [lia|].
  destruct (index_ok (mc_recession tr) i) as (x7 & -> & _); [lia|].
  simpl. eauto.
Qed.

(** The same loop when [per_share] is the bare float: the first turn
    raises [TypeError] at [per_share[i]]. *)
Lemma details_type_error tr n ev x i idx :
  trials_of_size n tr -> length ev = n -> (i < n)%nat ->
  for_each (detail_of tr ev (PyFloat x)) (i :: idx) = Raise TypeError.
Proof.
  intros (Hr & Hg & Hw & Ht & Hb) Hev Hi. simpl. unfold detail_of, getitem.
  destruct (index_ok (mc_base_draw tr) i) as (x1 & -> & _); [lia|].
  destruct (index_ok (mc_g tr) i) as (x2 & -> & _); [lia|].
  destruct (index_ok (mc_w tr) i) as (x3 & -> & _); [lia|].
  destruct (index_ok (mc_tg tr) i) as (x4 & -> & _); [lia|].
  destruct (index_ok ev i) as (x5 & -> & _); [lia|].
  reflexivity.
Qed.

End Shapes.

(* ===================================================================== *)
(** ** When a call returns and when it raises *)
(* ===================================================================== *)

Lemma last_item_ok {A : Type} (l : list A) :
  l <> [] -> exists x, last_item l = Ok x.
Proof.
  intros H. unfold last_item. destruct (rev l) as [|x r] eqn:E; [|eauto].
  exfalso. apply H. apply (f_equal (@rev A)) in E.
  now rewrite rev_involutive in E.
Qed.

(** The Gordon denominator is zero only when the guard [wacc <= tg] is
    taken on a WACC that absorbs the 1e-6 by which [tg] is lowered; an
    infinite or [nan] denominator does not raise. *)
Lemma terminal_value_total (x w t : float) :
  terminal_safe w t = true ->
  exists v, _terminal_value x w t = Ok v.
Proof.
  unfold terminal_safe, _terminal_value, py_min, py_truediv, less_1e6.
  destruct w as [w| | |], t as [t| | |]; cbn [fleb negb orb];
    try (intros _; eexists; reflexivity).
  - destruct (Qle_bool w t) eqn:E; cbn [negb orb].
    + destruct (absorbs_1e6 w); [discriminate|]. intros _.
      apply Qle_bool_iff in E. simpl.
      repeat (qcases; simpl); try (eexists; reflexivity); exfalso; lra.
    + intros _. apply Qle_bool_gt in E. simpl.
      repeat (qcases; simpl); try (eexists; reflexivity); exfalso; lra.
  - destruct (absorbs_1e6 w); [discriminate|]. intros _. simpl.
    repeat (qcases; simpl); try (eexists; reflexivity); exfalso; lra.
Qed.

Lemma terminal_value_zero_division (x w t : float) :
  terminal_safe w t = false ->
  _terminal_value x w t = Raise ZeroDivisionError.
Proof.
  unfold terminal_safe, _terminal_value, py_min, py_truediv, less_1e6.
  destruct w as [w| | |], t as [t| | |]; cbn [fleb negb orb];
    try discriminate.
  - destruct (Qle_bool w t) eqn:E; cbn [negb orb]; [|discriminate].
    destruct (absorbs_1e6 w); [|discriminate]. intros _.
    apply Qle_bool_iff in E. simpl.
    repeat (qcases; simpl); try reflexivity; exfalso; lra.
  - destruct (absorbs_1e6 w); [|discriminate]. intros _. simpl.
    repeat (qcases; simpl); try reflexivity; exfalso; lra.
Qed.

Lemma guard_false_safe (w t : float) :
  fleb w t = false -> terminal_safe w t = true.
Proof.
  unfold terminal_safe. now intros ->.
Qed.

(** In nominal mode validation has already refused the rates on which
    the guard of [_terminal_value] would be taken. *)
Lemma nominal_terminal_safe (a : Inputs) :
  real_mode a = false ->
  _validate_inputs (wacc a) (terminal_growth a) (years a) = Ok tt ->
  terminal_safe (wacc_nom a) (tg_nom a) = true.
Proof.
  intros Hm Hv. apply validate_ok in Hv as (_ & Hwt & _).
  unfold wacc_nom, tg_nom, to_nominal. rewrite Hm.
  now apply guard_false_safe.
Qed.

Lemma base_case_total (f g w t : float) (y : nat) (sh ch : float)
    (br : CapitalBridge) :
  y <> O -> terminal_safe w t = true ->
  exists b, _base_case_breakdown f g w t y sh ch br = Ok b.
Proof.
  intros Hy Hs. unfold _base_case_breakdown.
  destruct (last_item_ok (_project_fcf f g y)) as [x ->].
  { unfold _project_fcf, arange1. destruct y; [contradiction | discriminate]. }
  cbn [rbind].
  destruct (terminal_value_total x w t Hs) as [v ->]. cbn [rbind]. eauto.
Qed.


Section Totality.

Variable np : Numpy.

Lemma mbind_ok {A B : Type} (c : M np A) (k : A -> M np B) s a s1 :
  c s = (Ok a, s1) -> mbind np c k s = k a s1.
Proof.
  intros H. unfold mbind. now rewrite H.
Qed.

(** With a positive projected share count the engine returns one
    per-share value per run. *)
Lemma monte_carlo_total bf bg bw bt y sh ch br n rp s :
  (0 <= n)%Z -> y <> O -> fgtb (_shares_path sh ch y) (Fin 0) = true ->
  exists l ds s',
    _monte_carlo_vectorized np bf bg bw bt y sh ch br n rp s
    = (Ok (NdArray l, ds), s') /\ length l = Z.to_nat n.
Proof.
  intros Hn Hy Hsh. unfold _monte_carlo_vectorized.
  apply Z.ltb_ge in Hn. rewrite Hn.
  destruct (sample_trials_ok np bf bg bw bt (Z.to_nat n) rp s) as [tr Htr].
  rewrite (mbind_ok _ _ _ _ _ Htr).
  pose proof (sample_trials_size np _ _ _ _ _ _ _ _ _ Htr) as Hsize.
  destruct (value_trials_shape tr (Z.to_nat n) y sh ch br Hsize Hy)
    as (ev & ps & Hval & Hev & Hps).
  rewrite Hsh in Hps. destruct Hps as (l & -> & Hl).
  unfold mbind at 1. unfold lift at 1. rewrite Hval.
  unfold mbind at 1. unfold choice. cbn [fst snd].
  destruct (details_total tr (Z.to_nat n) ev l
              (fst (np_random_choice np (Z.to_nat n)
                      (Nat.min 25 (Z.to_nat n))
                      (snd (sample_trials np bf bg bw bt (Z.to_nat n) rp s)))))
    as [ds Hds]; auto.
  { intros i. apply choice_range. }
  unfold mbind, lift, mret. rewrite Hds. eauto.
Qed.

(** With a projected share count that is zero or negative and at least
    one run, the loop over the sampled scenarios raises [TypeError]. *)
Lemma monte_carlo_type_error bf bg bw bt y sh ch br n rp s :
  (1 <= n)%Z -> y <> O -> fgtb (_shares_path sh ch y) (Fin 0) = false ->
  fst (_monte_carlo_vectorized np bf bg bw bt y sh ch br n rp s)
  = Raise TypeError.
Proof.
  intros Hn Hy Hsh. unfold _monte_carlo_vectorized.
  assert (Hn0 : (n <? 0)%Z = false) by (apply Z.ltb_ge; lia). rewrite Hn0.
  destruct (sample_trials_ok np bf bg bw bt (Z.to_nat n) rp s) as [tr Htr].
  rewrite (mbind_ok _ _ _ _ _ Htr).
  pose proof (sample_trials_size np _ _ _ _ _ _ _ _ _ Htr) as Hsize.
  destruct (value_trials_shape tr (Z.to_nat n) y sh ch br Hsize Hy)
    as (ev & ps & Hval & Hev & Hps).
  rewrite Hsh in Hps. subst ps.
  unfold mbind at 1. unfold lift at 1. rewrite Hval.
  unfold mbind at 1. unfold choice. cbn [fst snd].
  set (s1 := snd (sample_trials np bf bg bw bt (Z.to_nat n) rp s)).
  pose proof (choice_size np (Z.to_nat n) (Nat.min 25 (Z.to_nat n)) s1
                (Nat.le_min_r _ _)) as Hlen.
  pose proof (choice_range np (Z.to_nat n) (Nat.min 25 (Z.to_nat n)) s1)
    as Hrange.
  destruct (fst (np_random_choice np (Z.to_nat n)
                   (Nat.min 25 (Z.to_nat n)) s1)) as [|i idx].
  { cbn [length] in Hlen. lia. }
  unfold mbind, lift.
  rewrite (details_type_error tr (Z.to_nat n) ev NaN i idx); auto.
  apply Hrange. now left.
Qed.

Lemma years_nonzero (a : Inputs) :
  _validate_inputs (wacc a) (terminal_growth a) (years a) = Ok tt ->
  Z.to_nat (years a) <> O.
Proof.
  intros H. apply validate_ok in H. lia.
Qed.

(** An accepted call whose terminal value is safe, with a run count that
    is not negative and a positive projected share count, returns. *)
Lemma calculate_total (a : Inputs) s :
  _validate_inputs (wacc a) (terminal_growth a) (years a) = Ok tt ->
  terminal_safe (wacc_nom a) (tg_nom a) = true ->
  (0 <= monte_carlo_runs a)%Z ->
  fgtb (end_shares a) (Fin 0) = true ->
  exists r s', calculate_dcf_valuation np a s = (Ok r, s').
Proof.
  intros Hv Hs Hn Hsh. pose proof (years_nonzero a Hv) as Hy.
  unfold calculate_dcf_valuation.
  unfold mbind at 1. unfold lift at 1. rewrite Hv.
  destruct (base_case_total (resolved_base_fcf a) (g_nom a) (wacc_nom a)
              (tg_nom a) (Z.to_nat (years a)) (shares_outstanding a)
              (annual_share_change a) (resolved_bridge a) Hy Hs) as [b Hb].
  unfold mbind at 1. unfold lift at 1. rewrite Hb.
  destruct (monte_carlo_total (resolved_base_fcf a) (g_nom a)
              (wacc_nom a) (tg_nom a) (Z.to_nat (years a))
              (shares_outstanding a) (annual_share_change a)
              (resolved_bridge a) (monte_carlo_runs a)
              (recession_prob a) s Hn Hy Hsh)
    as (l & ds & s' & Hmc & _).
  rewrite (mbind_ok _ _ _ _ _ Hmc). unfold mbind, lift, mret. simpl. eauto.
Qed.

(** An accepted call whose terminal value is safe, with at least one run
    and a projected share count that is not positive, raises
    [TypeError]. *)
Lemma calculate_type_error (a : Inputs) s :
  _validate_inputs (wacc a) (terminal_growth a) (years a) = Ok tt ->
  terminal_safe (wacc_nom a) (tg_nom a) = true ->
  (1 <= monte_carlo_runs a)%Z ->
  fgtb (end_shares a) (Fin 0) = false ->
  fst (calculate_dcf_valuation np a s) = Raise TypeError.
Proof.
  intros Hv Hs Hn Hsh. pose proof (years_nonzero a Hv) as Hy.
  unfold calculate_dcf_valuation.
  unfold mbind at 1. unfold lift at 1. rewrite Hv.
  destruct (base_case_total (resolved_base_fcf a) (g_nom a) (wacc_nom a)
              (tg_nom a) (Z.to_nat (years a)) (shares_outstanding a)
              (annual_share_change a) (resolved_bridge a) Hy Hs) as [b Hb].
  unfold mbind at 1. unfold lift at 1. rewrite Hb.
  pose proof (monte_carlo_type_error (resolved_base_fcf a)
                (g_nom a) (wacc_nom a) (tg_nom a)
                (Z.to_nat (years a)) (shares_outstanding a)
                (annual_share_change a) (resolved_bridge a)
                (monte_carlo_runs a) (recession_prob a) s Hn Hy Hsh)
    as Hmc.
  unfold mbind at 1.
  destruct (_monte_carlo_vectorized _ _ _ _ _ _ _ _ _ _ _ _) as [[mc|e] s1];
    simpl in Hmc; [discriminate|].
  simpl. now injection Hmc as ->.
Qed.


End Totality.

(* ===================================================================== *)
(** ** Claims on whole calls *)
(* ===================================================================== *)

(** C1 (the code departs from it).  With assumptions that validation
    accepts, one Monte Carlo run and no share outstanding, the projected
    share count is zero; the base case reports a per-share value of [nan],
    but the Monte Carlo engine then holds a bare [nan] instead of an array
    and the call raises [TypeError], whatever the generator. *)
Theorem zero_shares_raise_type_error (np : Numpy) (s : rng_state np) :
  _validate_inputs (wacc zero_shares) (terminal_growth zero_shares)
                   (years zero_shares) = Ok tt
  /\ fgtb (end_shares zero_shares) (Fin 0) = false
  /\ (exists b, base_case_of zero_shares = Ok b
                /\ equity_value_per_share b = NaN)
  /\ fst (calculate_dcf_valuation np zero_shares s) = Raise TypeError.
Proof.
  assert (Hv : _validate_inputs (wacc zero_shares)
                 (terminal_growth zero_shares) (years zero_shares) = Ok tt)
    by reflexivity.
  assert (Hsh : fgtb (end_shares zero_shares) (Fin 0) = false)
    by (vm_compute; reflexivity).
  split; [exact Hv|]. split; [exact Hsh|]. split.
  - destruct (base_case_total (resolved_base_fcf zero_shares)
                (g_nom zero_shares) (wacc_nom zero_shares)
                (tg_nom zero_shares) (Z.to_nat (years zero_shares))
                (shares_outstanding zero_shares)
                (annual_share_change zero_shares)
                (resolved_bridge zero_shares)) as [b Hb];
      [discriminate | reflexivity |].
    exists b. split; [exact Hb|].
    unfold _base_case_breakdown in Hb.
    apply rbind_ok_inv in Hb as (x & _ & Hb).
    apply rbind_ok_inv in Hb as (tv & _ & Hb).
    injection Hb as <-. vm_compute. reflexivity.
  - apply calculate_type_error;
      [exact Hv | reflexivity | discriminate | exact Hsh].
Qed.

(** The base FCF picked from a history is strictly positive. *)
Lemma pick_base_fcf_positive (h : list float) :
  flt (Fin 0) (_pick_base_fcf h).
Proof.
  induction h as [|x0 h0 _] using rev_ind; [reflexivity|].
  rewrite pick_base_fcf_snoc.
  destruct (fgtb x0 (Fin 0)) eqn:E; [exact E|].
  pose proof (positives_notnan h0) as Hn.
  destruct (filter (fun y => fgtb y (Fin 0)) h0) as [|q qs] eqn:Ef;
    [reflexivity|].
  destruct (py_max_spec qs q Hn) as [Hin _].
  rewrite <- Ef in Hin. now apply positives_spec in Hin.
Qed.

Lemma signed_pos (q : Q) (i : float) : 0 < q -> signed q i = i.
Proof.
  intros H. unfold signed. destruct (q ?= 0) eqn:E;
    [apply Qeq_alt in E; lra | apply Qlt_alt in E; lra | reflexivity].
Qed.

Lemma signed_neg (q : Q) (i : float) : q < 0 -> signed q i = fopp i.
Proof.
  intros H. unfold signed. destruct (q ?= 0) eqn:E;
    [apply Qeq_alt in E; lra | reflexivity | apply Qgt_alt in E; lra].
Qed.

Lemma signed_zero (q : Q) (i : float) : q == 0 -> signed q i = NaN.
Proof.
  intros H. unfold signed. destruct (q ?= 0) eqn:E;
    [reflexivity | apply Qlt_alt in E; lra | apply Qgt_alt in E; lra].
Qed.

(** The base FCF after the stock-compensation adjustment: unchanged when
    the adjustment is not applied; otherwise the product with
    [1 - percentage], not positive from a percentage of 1 on and not
    negative below. *)
Lemma resolved_base_fcf_cases (a : Inputs) :
  ((treat_sbc_as_cash_cost a = false
    \/ fgtb (sbc_percent_of_fcf a) (Fin 0) = false) ->
   resolved_base_fcf a = _pick_base_fcf (fcf_history a))
  /\ (treat_sbc_as_cash_cost a = true ->
      fgtb (sbc_percent_of_fcf a) (Fin 0) = true ->
      resolved_base_fcf a
      = fmul (_pick_base_fcf (fcf_history a))
             (fsub (Fin 1) (sbc_percent_of_fcf a))
      /\ (fle (Fin 1) (sbc_percent_of_fcf a) ->
          ~ flt (Fin 0) (resolved_base_fcf a))
      /\ (flt (sbc_percent_of_fcf a) (Fin 1) ->
          fle (Fin 0) (resolved_base_fcf a))).
Proof.
  unfold resolved_base_fcf, sbc_adjust.
  pose proof (pick_base_fcf_positive (fcf_history a)) as Hp.
  set (p := _pick_base_fcf (fcf_history a)) in *.
  set (c := sbc_percent_of_fcf a).
  split.
  - intros [-> | ->]; [reflexivity|]. now rewrite andb_false_r.
  - intros -> Hc. rewrite Hc. cbn [andb]. split; [reflexivity|].
    unfold flt, fle, fgtb in *.
    destruct p as [q| | |]; cbn [fltb] in Hp; try discriminate Hp;
      destruct c as [k| | |]; cbn [fltb] in Hc; try discriminate Hc;
      cbn [fsub fopp fadd fmul fleb fltb];
      try apply Qltb_lt in Hp; apply Qltb_lt in Hc || clear Hc.
    + rewrite Qle_bool_iff, !Qltb_lt, Qle_bool_iff. split; intros H; nra.
    + rewrite signed_pos by exact Hp. cbn [fopp fltb fleb].
      split; [intros _ H; discriminate H | discriminate].
    + rewrite Qle_bool_iff, Qltb_lt. split.
      * intros H.
        destruct (Qeq_dec (1 + - k) 0) as [E|E].
        -- rewrite (signed_zero _ _ E). discriminate.
        -- rewrite signed_neg by lra. discriminate.
      * intros H. rewrite signed_pos by lra. reflexivity.
    + split; [intros _ H; discriminate H | discriminate].
Qed.

(** C5 as stated fails: with the adjustment enabled and a percentage of
    1, validation accepts the call, the call returns, and the base FCF it
    echoes is not positive. *)
Lemma sbc_full_base_fcf_not_positive :
  _validate_inputs (wacc sbc_full) (terminal_growth sbc_full)
                   (years sbc_full) = Ok tt
  /\ exists r s',
       calculate_dcf_valuation Toy.numpy sbc_full 0%Z = (Ok r, s')
       /\ ~ flt (Fin 0) (a_base_fcf (assumptions r)).
Proof.
  split; [reflexivity|].
  destruct (calculate_total Toy.numpy sbc_full 0%Z) as (r & s' & Hr);
    [reflexivity | reflexivity | discriminate | vm_compute; reflexivity |].
  exists r, s'. split; [exact Hr|].
  apply calculate_ok_inv in Hr as (_ & b & mc & sm & _ & _ & _ & _ & _ & _
                                    & Hecho & _).
  rewrite Hecho. vm_compute. discriminate.
Qed.

(** C5, amended.  For every call that returns, the base FCF picked from
    the history is strictly positive, and the base FCF echoed in the
    result's assumptions is that value whenever the stock-compensation
    adjustment is not applied: when it is disabled, or when its percentage
    is not greater than 0, which is the case of [nan].  When the
    adjustment is applied the echoed value is the product with
    [1 - percentage]: not positive for a percentage of 1 or more, and not
    negative for a percentage below 1. *)
Theorem echoed_base_fcf_positive (np : Numpy) (a : Inputs)
    (s s' : rng_state np) (r : ValuationResult) :
  calculate_dcf_valuation np a s = (Ok r, s') ->
  flt (Fin 0) (_pick_base_fcf (fcf_history a))
  /\ ((treat_sbc_as_cash_cost a = false
       \/ fgtb (sbc_percent_of_fcf a) (Fin 0) = false) ->
      a_base_fcf (assumptions r) = _pick_base_fcf (fcf_history a))
  /\ (treat_sbc_as_cash_cost a = true ->
      fgtb (sbc_percent_of_fcf a) (Fin 0) = true ->
      a_base_fcf (assumptions r)
      = fmul (_pick_base_fcf (fcf_history a))
             (fsub (Fin 1) (sbc_percent_of_fcf a))
      /\ (fle (Fin 1) (sbc_percent_of_fcf a) ->
          ~ flt (Fin 0) (a_base_fcf (assumptions r)))
      /\ (flt (sbc_percent_of_fcf a) (Fin 1) ->
          fle (Fin 0) (a_base_fcf (assumptions r)))).
Proof.
  intros Hr.
  apply calculate_ok_inv in Hr as (_ & b & mc & sm & _ & _ & _ & _ & _ & _
                                    & Hecho & _).
  rewrite Hecho. split; [apply pick_base_fcf_positive|].
  apply resolved_base_fcf_cases.
Qed.

(** The amended C5 on scenario A with a fifth of the base FCF treated as
    stock compensation, and with a percentage of [nan]. *)
Lemma echoed_base_fcf_positive_witness :
  (exists r s',
     calculate_dcf_valuation Toy.numpy sbc_partial 0%Z = (Ok r, s')
     /\ fle (Fin 0) (a_base_fcf (assumptions r)))
  /\ (exists r s',
        calculate_dcf_valuation Toy.numpy sbc_nan 0%Z = (Ok r, s')
        /\ a_base_fcf (assumptions r) = Fin 133.1).
Proof.
  split.
  - destruct (calculate_total Toy.numpy sbc_partial 0%Z) as (r & s' & Hr);
      [reflexivity | reflexivity | discriminate | vm_compute; reflexivity |].
    exists r, s'. split; [exact Hr|].
    destruct (echoed_base_fcf_positive Toy.numpy sbc_partial 0%Z s' r Hr)
      as (_ & _ & H).
    destruct (H eq_refl eq_refl) as (_ & _ & Hlt). apply Hlt. reflexivity.
  - destruct (calculate_total Toy.numpy sbc_nan 0%Z) as (r & s' & Hr);
      [reflexivity | reflexivity | discriminate | vm_compute; reflexivity |].
    exists r, s'. split; [exact Hr|].
    destruct (echoed_base_fcf_positive Toy.numpy sbc_nan 0%Z s' r Hr)
      as (_ & H & _).
    rewrite H; [reflexivity | right; reflexivity].
Defined.





(** Without a seed the outcome does depend on the state the generator is
    in: the reseeding of the constructor is what C9 rests on. *)
Remark unseeded_runs_depend_on_state :
  sampled_waccs (fst (run Toy.numpy None short_call 1%Z))
  <> sampled_waccs (fst (run Toy.numpy None short_call 2%Z)).
Proof.
  lazy. intros H. discriminate H.
Qed.

(** C4.  Scenario A: the base FCF is 133.1 and every call returns the
    base case whose PV of the explicit period, Gordon terminal value, PV of
    the terminal value, enterprise value and equity value per share are
    within 0.5% of 580.12, 2499.56, 1552.35, 2132.47 and 2.13. *)
Theorem scenario_A_base_case :
  resolved_base_fcf scenario_A = Fin 133.1
  /\ (exists b,
        base_case_of scenario_A = Ok b
        /\ within 0.005 580.12 (pv_explicit_period b)
        /\ within 0.005 2499.56 (terminal_value_gordon b)
        /\ within 0.005 1552.35 (pv_terminal_value b)
        /\ within 0.005 2132.47 (enterprise_value b)
        /\ within 0.005 2.13 (equity_value_per_share b))
  /\ (forall (np : Numpy) (s : rng_state np),
        exists r s',
          calculate_dcf_valuation np scenario_A s = (Ok r, s')
          /\ base_case_of scenario_A = Ok (base_case r)
          /\ a_base_fcf (assumptions r) = Fin 133.1).
Proof.
  split; [reflexivity|]. split.
  - destruct (base_case_of scenario_A) as [b|e] eqn:E;
      [|vm_compute in E; discriminate E].
    exists b. split; [reflexivity|].
    vm_compute in E. injection E as <-.
    repeat split; vm_compute; discriminate.
  - intros np s.
    destruct (calculate_total np scenario_A s) as (r & s' & Hr);
      [reflexivity | reflexivity | discriminate | vm_compute; reflexivity |].
    exists r, s'. split; [exact Hr|].
    apply calculate_ok_inv in Hr as (_ & b & mc & sm & Hb & _ & _ & Hbase & _
                                      & _ & Hecho & _).
    split; [unfold base_case_of; now rewrite Hb, Hbase | exact Hecho].
Qed.

(* ===================================================================== *)
(** ** Arrays of finite values *)
(* ===================================================================== *)

Lemma finite_list (l : list float) :
  forallb isfinite l = true -> l = map Fin (map to_Q l).
Proof.
  induction l as [|x l IH]; simpl; [reflexivity|].
  intros H. apply andb_true_iff in H as [Hx Hl].
  destruct x; try discriminate. simpl. now rewrite <- IH.
Qed.

Lemma forallb_isfinite_Fin (qs : list Q) : forallb isfinite (map Fin qs) = true.
Proof.
  induction qs; simpl; auto.
Qed.

Lemma fold_left_fadd_Fin (qs : list Q) (a : Q) :
  fold_left fadd (map Fin qs) (Fin a) = Fin (fold_left Qplus qs a).
Proof.
  revert a. induction qs as [|q qs IH]; intros a; simpl; [reflexivity|].
  apply IH.
Qed.

Lemma fold_left_Qplus (qs : list Q) (a : Q) :
  fold_left Qplus qs a == a + Qsum qs.
Proof.
  revert a. induction qs as [|q qs IH]; intros a; simpl; [ring|].
  rewrite IH. ring.
Qed.

(** The sum of finite values is the finite value of their sum. *)
Lemma fsum_Fin (qs : list Q) :
  exists q, fsum (map Fin qs) = Fin q /\ q == Qsum qs.
Proof.
  unfold fsum. rewrite fold_left_fadd_Fin. eexists. split; [reflexivity|].
  rewrite fold_left_Qplus. ring.
Qed.

Lemma Qsum_map_scale {A : Type} (f : A -> Q) (s : Q) (l : list A) :
  ~ s == 0 ->
  Qsum (map (fun p => (f p / s)%Q) l) == Qsum (map f l) / s.
Proof.
  intros Hs. induction l as [|p l IH]; simpl; [field; exact Hs|].
  rewrite IH. field. exact Hs.
Qed.

Lemma map_fdiv_Fin (qs : list Q) (s : Q) :
  ~ s == 0 ->
  map (fun x => x / Fin s) (map Fin qs) = map Fin (map (fun q => (q / s)%Q) qs).
Proof.
  intros Hs. apply Qeq_bool_false in Hs.
  induction qs as [|q qs IH]; simpl; [reflexivity|].
  now rewrite Hs, IH.
Qed.

Lemma weighted_Fin (ts : list nat) (ws : list Q) :
  map (fun tw => fst tw * snd tw) (combine (map of_nat ts) (map Fin ws))
  = map Fin (map (fun p => (inject_Z (Z.of_nat (fst p)) * snd p)%Q)
                 (combine ts ws)).
Proof.
  revert ws. induction ts as [|t ts IH]; intros [|w ws]; simpl; try reflexivity.
  now rewrite IH.
Qed.

(* ===================================================================== *)
(** ** Claims on the summary and the duration *)
(* ===================================================================== *)

Lemma Ok_inj {A : Type} (x y : A) : Ok x = Ok y -> x = y.
Proof.
  intros H.
  exact (f_equal (fun o => match o with Ok z => z | Raise _ => x end) H).
Defined.

Lemma existsb_isfinite_false (arr : list float) :
  (forall x, In x arr -> isfinite x = false) -> existsb isfinite arr = false.
Proof.
  intros H. apply not_true_iff_false. intros E.
  apply existsb_exists in E as (x & Hx & Hfin). rewrite (H x Hx) in Hfin.
  discriminate.
Qed.

Lemma filter_isfinite_idem (arr : list float) :
  filter isfinite (filter isfinite arr) = filter isfinite arr.
Proof.
  induction arr as [|x arr IH]; simpl; [reflexivity|].
  destruct (isfinite x) eqn:E; simpl; [now rewrite E, IH | exact IH].
Qed.

(** C8.  Summarising an array that is empty or has no finite value gives
    [nan] for every statistic and a count of 0; otherwise every statistic
    is numpy's statistic of the finite entries alone, the count is their
    number, and the non-finite entries have no influence on the summary. *)
Theorem summarize_finite_entries (np : Numpy) (arr : list float) :
  ((forall x, In x arr -> isfinite x = false) ->
   _summarize_mc np (NdArray arr)
   = Ok {| s_mean := NaN; s_median := NaN; s_std := NaN;
           s_p5 := NaN; s_p25 := NaN; s_p75 := NaN; s_p95 := NaN;
           s_min := NaN; s_max := NaN; s_count := 0 |})
  /\ ((exists x, In x arr /\ isfinite x = true) ->
      let clean := filter isfinite arr in
      _summarize_mc np (NdArray arr)
      = Ok {| s_mean := np_mean clean;
              s_median := np_median clean;
              s_std := np_std np clean;
              s_p5 := np_percentile clean 5;
              s_p25 := np_percentile clean 25;
              s_p75 := np_percentile clean 75;
              s_p95 := np_percentile clean 95;
              s_min := np_min clean;
              s_max := np_max clean;
              s_count := length clean |}
      /\ (forall x, In x clean <-> In x arr /\ isfinite x = true)
      /\ _summarize_mc np (NdArray arr) = _summarize_mc np (NdArray clean)).
Proof.
  split.
  - intros H. simpl. unfold summarize_array.
    rewrite (existsb_isfinite_false arr H), orb_true_r. reflexivity.
  - intros (x & Hx & Hfin) clean.
    assert (Hex : existsb isfinite arr = true)
      by (apply existsb_exists; eauto).
    assert (Hlen : Nat.eqb (length arr) 0 = false)
      by (destruct arr; [contradiction | reflexivity]).
    assert (Hin : forall y, In y clean <-> In y arr /\ isfinite y = true)
      by (intros y; apply filter_In).
    assert (Hex' : existsb isfinite clean = true)
      by (apply existsb_exists; exists x; split; [now apply Hin | exact Hfin]).
    assert (Hlen' : Nat.eqb (length clean) 0 = false).
    { destruct clean as [|c cl] eqn:E; [|reflexivity].
      exfalso. apply (Hin x). tauto. }
    split; [|split; [exact Hin|]].
    + simpl. unfold summarize_array. now rewrite Hex, Hlen.
    + simpl. unfold summarize_array.
      rewrite Hex, Hlen, Hex', Hlen'. cbn [orb negb].
      subst clean. now rewrite filter_isfinite_idem.
Qed.

(** C8 on an array of [nan] and on one with two finite entries. *)
Lemma summarize_finite_entries_witness :
  s_count (summarize_array Toy.numpy [NaN; NaN]) = 0%nat
  /\ s_mean (summarize_array Toy.numpy [NaN; NaN]) = NaN
  /\ s_count (summarize_array Toy.numpy [NaN; Fin 1; PInf; Fin 3]) = 2%nat
  /\ s_max (summarize_array Toy.numpy [NaN; Fin 1; PInf; Fin 3]) = Fin 3.
Proof.
  destruct (summarize_finite_entries Toy.numpy [NaN; NaN]) as [Hnan _].
  destruct (summarize_finite_entries Toy.numpy [NaN; Fin 1; PInf; Fin 3])
    as [_ Hfin].
  assert (H1 : _summarize_mc Toy.numpy (NdArray [NaN; NaN]) = Ok nan_summary).
  { apply Hnan. intros x [<-|[<-|[]]]; reflexivity. }
  destruct Hfin as (H2 & _ & _).
  { exists (Fin 1). split; [right; now left | reflexivity]. }
  apply Ok_inj in H1, H2. rewrite H1, H2. repeat split; reflexivity.
Defined.



(** The duration of an array of finite present values. *)
Lemma duration_years_Fin (qs : list Q) :
  qs <> [] ->
  exists s d,
    fsum (map Fin qs) = Fin s /\ s == Qsum qs /\
    duration_years (map Fin qs) = Fin d /\
    ((0 < s)%Q ->
     d == Qsum (map (fun p => (inject_Z (Z.of_nat (fst p)) * snd p)%Q)
                    (combine (arange1 (length qs)) qs)) / s) /\
    (~ (0 < s)%Q -> d == 0).
Proof.
  intros Hne. destruct (fsum_Fin qs) as (s & Hs & Hsq).
  exists s. unfold duration_years.
  rewrite forallb_isfinite_Fin, length_map, Hs.
  assert (Hlen : Nat.eqb (length qs) 0 = false)
    by (destruct qs; [contradiction | reflexivity]).
  rewrite Hlen. cbn [negb andb]. unfold fgtb. cbn [fltb].
  destruct (Qltb 0 s) eqn:E; [apply Qltb_lt in E | apply Qltb_ge in E].
  - assert (Hs0 : ~ s == 0) by (intros H0; rewrite H0 in E; now apply Qlt_irrefl in E).
    rewrite (map_fdiv_Fin qs s Hs0), weighted_Fin.
    destruct (fsum_Fin
                (map (fun p => (inject_Z (Z.of_nat (fst p)) * snd p)%Q)
                     (combine (arange1 (length qs))
                              (map (fun q => (q / s)%Q) qs))))
      as (d & Hd & Hdq).
    exists d. repeat split; auto.
    + intros _. rewrite Hdq.
      rewrite <- (Qsum_map_scale
                    (fun p => (inject_Z (Z.of_nat (fst p)) * snd p)%Q) s _ Hs0).
      clear. generalize (arange1 (length qs)). intros ts. revert ts.
      induction qs as [|q qs IH]; intros [|t ts]; simpl; try reflexivity.
      rewrite IH. unfold Qdiv. ring.
    + intros Hn. contradiction.
  - rewrite (map_map Fin (fun _ => Fin 0)).
    replace (map (fun _ : Q => Fin 0) qs) with (map Fin (map (fun _ => 0%Q) qs))
      by now rewrite map_map.
    rewrite weighted_Fin.
    destruct (fsum_Fin
                (map (fun p => (inject_Z (Z.of_nat (fst p)) * snd p)%Q)
                     (combine (arange1 (length qs))
                              (map (fun _ => 0%Q) qs))))
      as (d & Hd & Hdq).
    exists d. repeat split; auto.
    + intros Hpos. exfalso. apply (Qlt_irrefl 0).
      eapply Qlt_le_trans; eauto.
    + intros _. rewrite Hdq. clear.
      generalize (arange1 (length qs)). intros ts. revert ts.
      induction qs as [|q qs IH]; intros [|t ts]; simpl; try reflexivity.
      rewrite IH. ring.
Qed.




(* ===================================================================== *)
(** ** The sampled WACC and terminal growth *)
(* ===================================================================== *)

Lemma np_clip_Fin (q lo hi : Q) :
  lo <= hi ->
  exists a, np_clip (Fin q) (Fin lo) (Fin hi) = Fin a /\ lo <= a /\ a <= hi.
Proof.
  intros H. unfold np_clip, np_maximum, np_minimum. cbn [fleb].
  destruct (Qle_bool q lo) eqn:E1;
    [apply Qle_bool_iff in E1 | apply Qle_bool_gt in E1]; cbn [fleb].
  - destruct (Qle_bool lo hi) eqn:E2;
      [apply Qle_bool_iff in E2 | apply Qle_bool_gt in E2];
      eexists; (split; [reflexivity|]); split; lra.
  - destruct (Qle_bool q hi) eqn:E2;
      [apply Qle_bool_iff in E2 | apply Qle_bool_gt in E2];
      eexists; (split; [reflexivity|]); split; lra.
Qed.

Lemma np_clip_number (x : float) (lo hi : Q) :
  not_nan x -> lo <= hi ->
  exists a, np_clip x (Fin lo) (Fin hi) = Fin a /\ lo <= a /\ a <= hi.
Proof.
  unfold not_nan. intros Hx Hlh. destruct x as [q| | |]; try discriminate.
  - now apply np_clip_Fin.
  - exists hi. split; [reflexivity | split; lra].
  - exists lo. split; [|split; lra].
    unfold np_clip, np_maximum, np_minimum. cbn [fleb].
    apply Qle_bool_iff in Hlh. now rewrite Hlh.
Qed.

Lemma Forall_vmap2 {A B C : Type} (P : A -> Prop) (P' : B -> Prop)
    (R : C -> Prop) (f : A -> B -> C) (a : list A) (b : list B) :
  (forall x y, P x -> P' y -> R (f x y)) ->
  Forall P a -> Forall P' b -> Forall R (vmap2 f a b).
Proof.
  intros Hf Ha. unfold vmap2. revert b.
  induction Ha as [|x a Hx _ IH]; intros [|y b] Hb; cbn [combine map];
    try constructor.
  - inversion Hb; subst. now apply Hf.
  - inversion Hb; subst. now apply IH.
Qed.

Lemma Forall_np_where {A : Type} (P : A -> Prop) (c : list bool)
    (a b : list A) :
  Forall P a -> Forall P b -> Forall P (np_where c a b).
Proof.
  unfold np_where, vmap2. intros Ha. revert c b.
  induction Ha as [|x a Hx _ IH]; intros [|ci c] [|y b] Hb;
    cbn [combine map fst snd]; try constructor.
  - inversion Hb; subst. now destruct ci.
  - inversion Hb; subst. now apply IH.
Qed.

(** A variate around a base value that is not [nan] is not [nan], and
    neither is the mix of two of them. *)
Lemma shift_number (b : float) (q : Q) :
  not_nan b -> not_nan (fadd b (Fin q)).
Proof.
  unfold not_nan. destruct b; try discriminate; reflexivity.
Qed.

Lemma mix_number (b : float) (p q : Q) :
  not_nan b ->
  not_nan (fadd (fmul (Fin 0.7) (fadd b (Fin p)))
                (fmul (Fin 0.3) (fadd b (Fin q)))).
Proof.
  unfold not_nan. destruct b; try discriminate; reflexivity.
Qed.

Lemma minimum_number (x y : float) :
  not_nan x -> not_nan y -> not_nan (np_minimum x y).
Proof.
  unfold not_nan, np_minimum.
  destruct x, y; try discriminate; intros _ _;
    match goal with |- context [if ?c then _ else _] => destruct c end;
    reflexivity.
Qed.



Lemma index_nth_error {A : Type} (l : list A) (i : nat) (x : A) :
  index l i = Ok x -> nth_error l i = Some x.
Proof.
  unfold index. destruct (nth_error l i); [now intros [= ->] | discriminate].
Qed.

Lemma for_each_length {A B : Type} (f : A -> result B) (l : list A)
    (ys : list B) :
  for_each f l = Ok ys -> length ys = length l.
Proof.
  revert ys. induction l as [|x l IH]; simpl; intros ys H.
  - now injection H as <-.
  - apply rbind_ok_inv in H as (y & _ & H).
    apply rbind_ok_inv in H as (ys' & Hys & H). injection H as <-.
    simpl. f_equal. now apply IH.
Qed.

Section SampledRates.

Variable np : Numpy.



Lemma monte_carlo_ok_inv bf bg bw bt y sh ch br n rp s ps ds s' :
  _monte_carlo_vectorized np bf bg bw bt y sh ch br n rp s
  = (Ok (ps, ds), s') ->
  exists tr s1 ev idx,
    sample_trials np bf bg bw bt (Z.to_nat n) rp s = (Ok tr, s1) /\
    value_trials tr y sh ch br = Ok (ev, ps) /\
    for_each (detail_of tr ev ps) idx = Ok ds.
Proof.
  unfold _monte_carlo_vectorized. destruct (n <? 0)%Z; [discriminate|].
  intros H.
  apply mbind_ok_inv in H as (tr & s1 & Htr & H).
  apply mbind_ok_inv in H as ([ev ps'] & s2 & Hval & H).
  unfold lift in Hval. injection Hval as Hval <-.
  apply mbind_ok_inv in H as (idx & s3 & _ & H).
  apply mbind_ok_inv in H as (ds' & s4 & Hds & H).
  unfold lift in Hds. injection Hds as Hds <-.
  unfold mret in H. cbn [fst snd] in *. injection H as <- <- <-.
  exists tr, s1, ev, idx. auto.
Qed.

(** What a returning Monte Carlo stage returned. *)
Lemma monte_carlo_ok_shape bf bg bw bt y sh ch br n rp s ps ds s' :
  _monte_carlo_vectorized np bf bg bw bt y sh ch br n rp s
  = (Ok (ps, ds), s') ->
  y <> O ->
  (0 <= n)%Z /\ length ds = Nat.min 25 (Z.to_nat n) /\
  if fgtb (_shares_path sh ch y) (Fin 0)
  then exists l, ps = NdArray l /\ length l = Z.to_nat n
  else ps = PyFloat NaN.
Proof.
  unfold _monte_carlo_vectorized.
  destruct (n <? 0)%Z eqn:En; [discriminate|]. apply Z.ltb_ge in En.
  intros H Hy.
  apply mbind_ok_inv in H as (tr & s1 & Htr & H).
  apply mbind_ok_inv in H as ([ev ps'] & s2 & Hval & H).
  unfold lift in Hval. injection Hval as Hval <-.
  apply mbind_ok_inv in H as (idx & s3 & Hidx & H).
  apply mbind_ok_inv in H as (ds' & s4 & Hds & H).
  unfold lift in Hds. injection Hds as Hds <-.
  unfold mret in H. cbn [fst snd] in *. injection H as <- <- <-.
  unfold choice in Hidx. injection Hidx as <- _.
  split; [exact En|]. split.
  - rewrite (for_each_length _ _ _ Hds).
    apply choice_size, Nat.le_min_r.
  - pose proof (sample_trials_size np _ _ _ _ _ _ _ _ _ Htr) as Hsize.
    destruct (value_trials_shape tr (Z.to_nat n) y sh ch br Hsize Hy)
      as (ev' & ps'' & Hval' & _ & Hps).
    rewrite Hval in Hval'. injection Hval' as <- <-. exact Hps.
Qed.


End SampledRates.




(* ===================================================================== *)
(** ** The extremes of the summary *)
(* ===================================================================== *)

Local Close Scope float_scope.








(* ===================================================================== *)
(** ** The cost of capital and the valuation metrics *)
(* ===================================================================== *)

Lemma py_truediv_Fin (a b : Q) :
  (b == 0 -> py_truediv (Fin a) (Fin b) = Raise ZeroDivisionError) /\
  (~ b == 0 -> py_truediv (Fin a) (Fin b) = Ok (Fin (a / b))).
Proof.
  unfold py_truediv, fdiv. split; intros H.
  - apply Qeq_bool_iff in H. now rewrite H.
  - apply Qeq_bool_false in H. now rewrite H.
Qed.

(** X1.  [calculate_wacc] raises exactly when the debt-to-equity ratio is
    -1, and what it raises then is [ZeroDivisionError]. *)
Theorem wacc_raises_iff_no_capital (self : DCFCalculator) (beta : Q)
    (rf mrp : option Q) (cod tax de : Q) :
  ((exists e, calculate_wacc self beta rf mrp cod tax de = Raise e)
   <-> de == -1)
  /\ (de == -1 <->
      calculate_wacc self beta rf mrp cod tax de = Raise ZeroDivisionError).
Proof.
  unfold calculate_wacc. cbn [fadd].
  destruct (py_truediv_Fin 1 (1 + de)) as [Hz Hnz].
  destruct (py_truediv_Fin de (1 + de)) as [_ Hnz'].
  destruct (Qeq_dec (1 + de) 0) as [H0|H0].
  - rewrite (Hz H0). cbn [rbind].
    assert (de == -1) by lra.
    split; split; intros _; eauto.
  - rewrite (Hnz H0), (Hnz' H0). cbn [rbind].
    split; split; try discriminate.
    + intros [e He]. discriminate.
    + intros H. exfalso. apply H0. rewrite H. reflexivity.
    + intros H. exfalso. apply H0. rewrite H. reflexivity.
Qed.

Lemma py_truediv_raises (x y : float) (e : exn) :
  py_truediv x y = Raise e -> e = ZeroDivisionError /\ feq y (Fin 0).
Proof.
  unfold py_truediv. destruct y as [b| | |]; try discriminate.
  destruct (Qeq_bool b 0) eqn:E; [|discriminate].
  intros [= <-]. split; [reflexivity|]. now apply Qeq_bool_iff.
Qed.

Lemma py_truediv_zero (x y : float) :
  feq y (Fin 0) -> py_truediv x y = Raise ZeroDivisionError.
Proof.
  unfold py_truediv. destruct y as [b| | |]; cbn [feq]; try contradiction.
  intros H. apply Qeq_bool_iff in H. now rewrite H.
Qed.

Lemma py_truediv_ok (x y : float) :
  ~ feq y (Fin 0) -> py_truediv x y = Ok (fdiv x y).
Proof.
  unfold py_truediv. destruct y as [b| | |]; cbn [feq]; try reflexivity.
  intros H. destruct (Qeq_bool b 0) eqn:E; [|reflexivity].
  apply Qeq_bool_iff in E. contradiction.
Qed.

Lemma feq_zero_dec (y : float) : {feq y (Fin 0)} + {~ feq y (Fin 0)}.
Proof.
  destruct y as [b| | |]; cbn [feq]; try (right; tauto).
  apply Qeq_dec.
Qed.

(** The quotient in billions is zero exactly on the cash flows that
    underflow, and the exact quotient on the others. *)
Lemma in_billions_cases (x : float) :
  flt (Fin 0) x ->
  (feq (in_billions x) (Fin 0) /\ exists q, x = Fin q /\ q <= tiny_fcf)
  \/ (~ feq (in_billions x) (Fin 0)
      /\ in_billions x = fdiv x (Fin 1000000000)
      /\ ~ exists q, x = Fin q /\ q <= tiny_fcf).
Proof.
  unfold flt, in_billions. destruct x as [q| | |]; try discriminate.
  - cbn [fltb]. intros Hq. apply Qltb_lt in Hq.
    destruct (Qle_bool q tiny_fcf) eqn:E.
    + left. split; [cbn [feq]; reflexivity|].
      exists q. split; [reflexivity | now apply Qle_bool_iff].
    + right. apply Qle_bool_gt in E. split; [|split].
      * cbn [feq]. intros H0.
        assert (q == 0) by (apply (Qmult_inj_r q 0 (/ 1000000000));
                            [discriminate | rewrite Qmult_0_l; exact H0]).
        lra.
      * reflexivity.
      * intros (q' & [= <-] & Hle). lra.
  - intros _. right. split; [cbn; tauto|]. split; [reflexivity|].
    intros (q' & H & _). discriminate H.
Qed.

(** X3.  [calculate_valuation_metrics] returns the empty dictionary for an
    empty history, whatever the price.  On a history that is not empty it
    raises exactly when the price is zero or the picked FCF is so small
    that [current_fcf / 1e9] is 0.0, and what it raises is
    [ZeroDivisionError]; otherwise it returns metrics, each the quotient
    the code writes: the price-to-FCF is always computed (the picked FCF is
    positive, so its 0.0 fallback is never taken), and the FCF yield is 0
    exactly when the test [market_cap > 0] is false, which includes a
    market cap of [nan]. *)
Theorem valuation_metrics_outcomes (price dcf cap : float)
    (h : list float) :
  (h = [] -> calculate_valuation_metrics price dcf cap h = Ok None)
  /\ ((exists e, calculate_valuation_metrics price dcf cap h = Raise e)
      <-> h <> []
          /\ (feq price (Fin 0)
              \/ exists q, _pick_base_fcf h = Fin q /\ q <= tiny_fcf))
  /\ (forall e, calculate_valuation_metrics price dcf cap h = Raise e ->
                e = ZeroDivisionError)
  /\ (forall m,
        calculate_valuation_metrics price dcf cap h = Ok (Some m) ->
        dcf_vs_current m = fdiv (fsub dcf price) price /\
        upside_downside_multiple m = fdiv dcf price /\
        price_to_fcf m
        = fdiv price (fdiv (_pick_base_fcf h) (Fin 1000000000)) /\
        (fgtb cap (Fin 0) = true ->
         fcf_yield m = fdiv (_pick_base_fcf h) cap) /\
        (fgtb cap (Fin 0) = false -> fcf_yield m = Fin 0))
  /\ (h <> [] -> calculate_valuation_metrics price dcf cap h <> Ok None).
Proof.
  split; [intros ->; reflexivity|].
  destruct h as [|x h].
  { split; [|split; [|split]]; try discriminate; [|intros H; contradiction].
    split; [intros [e He]; discriminate He | intros [H _]; contradiction]. }
  unfold calculate_valuation_metrics.
  pose proof (pick_base_fcf_positive (x :: h)) as Hpick.
  set (fcf := _pick_base_fcf (x :: h)) in *.
  assert (Hpos : fgtb fcf (Fin 0) = true) by exact Hpick.
  rewrite Hpos.
  assert (Hyield : exists v3,
            (if fgtb cap (Fin 0) then py_truediv fcf cap else Ok (Fin 0))
            = Ok v3
            /\ (fgtb cap (Fin 0) = true -> v3 = fdiv fcf cap)
            /\ (fgtb cap (Fin 0) = false -> v3 = Fin 0)).
  { destruct (fgtb cap (Fin 0)) eqn:Hc.
    - exists (fdiv fcf cap). split; [|split; [reflexivity | discriminate]].
      apply py_truediv_ok. intros H0. unfold fgtb in Hc.
      destruct cap as [c| | |]; cbn [feq] in H0; try contradiction.
      cbn [fltb] in Hc. apply Qltb_lt in Hc. lra.
    - exists (Fin 0). split; [reflexivity|]. split; [discriminate|reflexivity]. }
  destruct Hyield as (v3 & -> & Hy1 & Hy0).
  destruct (feq_zero_dec price) as [Hp|Hp].
  { rewrite (py_truediv_zero _ _ Hp). cbn [rbind].
    split; [|split; [|split]].
    - split; [intros _; split; [discriminate | now left] | eauto].
    - now intros e [= <-].
    - discriminate.
    - discriminate. }
  rewrite !(py_truediv_ok _ _ Hp). cbn [rbind].
  destruct (in_billions_cases fcf Hpick)
    as [(Hz & Hq) | (Hnz & Hval & Hq)].
  - rewrite (py_truediv_zero _ _ Hz). cbn [rbind].
    split; [|split; [|split]].
    + split; [intros _; split; [discriminate | now right] | eauto].
    + now intros e [= <-].
    + discriminate.
    + discriminate.
  - rewrite (py_truediv_ok _ _ Hnz). cbn [rbind].
    split; [|split; [|split]].
    + split; [intros [e He]; discriminate He|].
      intros (_ & [H|H]); contradiction.
    + discriminate.
    + intros m [= <-].
      cbn [dcf_vs_current upside_downside_multiple price_to_fcf fcf_yield].
      rewrite Hval. repeat split; auto.
    + discriminate.
Qed.

(** X3 on a history ending in a loss, with and without a price, with a
    market cap of [nan], and on a cash flow that vanishes in billions. *)
Lemma valuation_metrics_outcomes_witness :
  calculate_valuation_metrics (Fin 0) (Fin 50) (Fin 1000)
    [Fin 120; Fin (-5)] = Raise ZeroDivisionError
  /\ calculate_valuation_metrics (Fin 40) (Fin 50) (Fin 1000)
       [Fin tiny_fcf] = Raise ZeroDivisionError
  /\ exists m,
       calculate_valuation_metrics (Fin 40) (Fin 50) NaN
         [Fin 120; Fin (-5)] = Ok (Some m)
       /\ fcf_yield m = Fin 0.
Proof.
  split; [|split].
  - destruct (valuation_metrics_outcomes (Fin 0) (Fin 50) (Fin 1000)
                [Fin 120; Fin (-5)]) as (_ & [_ Hz] & He & _).
    destruct Hz as [e H];
      [split; [discriminate | left; reflexivity]|].
    now rewrite (He e H) in H.
  - destruct (valuation_metrics_outcomes (Fin 40) (Fin 50) (Fin 1000)
                [Fin tiny_fcf]) as (_ & [_ Hz] & He & _).
    destruct Hz as [e H].
    + split; [discriminate|]. right. exists tiny_fcf.
      split; [reflexivity | apply Qle_refl].
    + now rewrite (He e H) in H.
  - destruct (calculate_valuation_metrics (Fin 40) (Fin 50) NaN
                [Fin 120; Fin (-5)]) as [[m|]|e] eqn:E;
      try (vm_compute in E; discriminate E).
    exists m. split; [reflexivity|].
    destruct (valuation_metrics_outcomes (Fin 40) (Fin 50) NaN
                [Fin 120; Fin (-5)]) as (_ & _ & _ & Hm & _).
    destruct (Hm m E) as (_ & _ & _ & _ & H5). apply H5. reflexivity.
Defined.

(** X4.  When the guard [wacc <= tg] of [_terminal_value] is false, which
    is also the case of a [nan] rate, the function returns
    [last * (1 + tg) / (wacc - tg)], whose denominator is a number other
    than zero, an infinity or [nan].  It raises exactly when the guard is
    taken on a WACC that absorbs the 1e-6 by which the growth is then
    lowered, a number above 2^34 or at or below -2^34: the denominator
    is then [wacc - wacc], and the error [ZeroDivisionError]. *)
Theorem terminal_value_closed_form (last w t : float) :
  (fleb w t = false ->
   _terminal_value last w t
   = Ok (fdiv (fmul last (fadd (Fin 1) t)) (fsub w t))
   /\ ~ feq (fsub w t) (Fin 0))
  /\ ((exists e, _terminal_value last w t = Raise e)
      <-> fleb w t = true
          /\ exists q, w = Fin q
                       /\ (17179869184 < q \/ q <= -17179869184))
  /\ (forall e, _terminal_value last w t = Raise e ->
                e = ZeroDivisionError).
Proof.
  split; [|split].
  - intros H. unfold _terminal_value. rewrite H.
    assert (Hd : ~ feq (fsub w t) (Fin 0)).
    { unfold fsub. destruct w as [a| | |], t as [b| | |];
        cbn [fopp fadd feq fleb] in *; auto; try discriminate H.
      apply Qle_bool_gt in H. lra. }
    split; [now apply py_truediv_ok | exact Hd].
  - destruct (terminal_safe w t) eqn:Hs.
    + destruct (terminal_value_total last w t Hs) as [v Hv]. split.
      * intros [e He]. rewrite Hv in He. discriminate He.
      * intros (Hg & q & -> & Hq). exfalso.
        unfold terminal_safe in Hs. rewrite Hg in Hs. cbn [negb orb] in Hs.
        unfold absorbs_1e6 in Hs.
        destruct Hq as [Hq|Hq];
          [apply Qltb_lt in Hq | apply Qle_bool_iff in Hq];
          rewrite Hq in Hs; [|rewrite orb_true_r in Hs]; discriminate Hs.
    + split.
      * intros _. unfold terminal_safe in Hs.
        apply orb_false_iff in Hs as [Hg Ha].
        apply negb_false_iff in Hg. split; [exact Hg|].
        destruct w as [q| | |]; try discriminate Ha.
        exists q. split; [reflexivity|].
        apply negb_false_iff in Ha. unfold absorbs_1e6 in Ha.
        apply orb_true_iff in Ha as [Ha|Ha];
          [left; now apply Qltb_lt | right; now apply Qle_bool_iff].
      * intros _. exists ZeroDivisionError.
        now apply terminal_value_zero_division.
  - intros e. apply terminal_value_raises.
Qed.

(** X4 on numbers, on a WACC of [nan], and on a WACC of 1e11 equal to the
    terminal growth, where the division raises. *)
Lemma terminal_value_closed_form_witness :
  feq (fdiv (fmul (Fin 100) (fadd (Fin 1) (Fin 0.05)))
            (fsub (Fin 0.10) (Fin 0.05))) (Fin 2100)
  /\ _terminal_value (Fin 100) (Fin 0.10) (Fin 0.05)
     = Ok (fdiv (fmul (Fin 100) (fadd (Fin 1) (Fin 0.05)))
                (fsub (Fin 0.10) (Fin 0.05)))
  /\ _terminal_value (Fin 100) NaN (Fin 0.05) = Ok NaN
  /\ _terminal_value (Fin 1) (Fin 100000000000) (Fin 100000000000)
     = Raise ZeroDivisionError.
Proof.
  split; [vm_compute; reflexivity|]. split; [|split].
  - destruct (terminal_value_closed_form (Fin 100) (Fin 0.10) (Fin 0.05))
      as (H & _). exact (proj1 (H eq_refl)).
  - destruct (terminal_value_closed_form (Fin 100) NaN (Fin 0.05))
      as (H & _). exact (proj1 (H eq_refl)).
  - destruct (terminal_value_closed_form (Fin 1) (Fin 100000000000)
                (Fin 100000000000)) as (_ & [_ H] & He).
    destruct H as [e H].
    + split; [reflexivity|]. exists 100000000000.
      split; [reflexivity|]. left. reflexivity.
    + now rewrite (He e H) in H.
Defined.

(** X5.  The base FCF picked from any history is strictly positive; it is
    the default of 1,000,000,000 or a value of the history, and a value of
    the history whenever the history has a positive one. *)
Theorem picked_base_fcf_positive_member (h : list float) :
  flt (Fin 0) (_pick_base_fcf h)
  /\ (_pick_base_fcf h = Fin 1000000000 \/ In (_pick_base_fcf h) h)
  /\ ((exists p, In p h /\ flt (Fin 0) p) -> In (_pick_base_fcf h) h).
Proof.
  split; [apply pick_base_fcf_positive|].
  induction h as [|x h _] using rev_ind.
  - split; [now left | intros (p & [] & _)].
  - rewrite pick_base_fcf_snoc.
    destruct (fgtb x (Fin 0)) eqn:E.
    + split; [right|intros _]; apply in_or_app; right; now left.
    + pose proof (positives_spec h) as Hf.
      pose proof (positives_notnan h) as Hn.
      destruct (filter (fun y => fgtb y (Fin 0)) h) as [|q qs] eqn:Ef.
      * split; [now left|]. intros (p & Hp & Hpos). exfalso.
        apply in_app_or in Hp as [Hp|[<-|[]]].
        -- apply (Hf p). tauto.
        -- unfold flt, fgtb in *. congruence.
      * destruct (py_max_spec qs q Hn) as [Hin _].
        apply Hf in Hin as [Hin _].
        split; [right|intros _]; apply in_or_app; now left.
Qed.

(* ===================================================================== *)
(** ** The historical growth rate *)
(* ===================================================================== *)

Lemma growth_cap_bounds (a : Q) :
  -0.5 <= py_max_Q (-0.5) (py_min_Q 0.5 a) /\
  py_max_Q (-0.5) (py_min_Q 0.5 a) <= 0.5 /\
  (0 <= a -> 0 <= py_max_Q (-0.5) (py_min_Q 0.5 a)).
Proof.
  unfold py_max_Q, py_min_Q.
  destruct (Qltb a 0.5) eqn:E1; [apply Qltb_lt in E1 | apply Qltb_ge in E1].
  - destruct (Qltb (-0.5) a) eqn:E2;
      [apply Qltb_lt in E2 | apply Qltb_ge in E2]; repeat split; lra.
  - destruct (Qltb (-0.5) 0.5) eqn:E2;
      [apply Qltb_lt in E2 | discriminate]; repeat split; lra.
Qed.

Lemma growth_steps_nonneg (l : list Q) :
  Forall (fun x => 0 < x) l -> StronglySorted Qle l ->
  Forall (fun g => 0 <= g) (growth_steps l).
Proof.
  induction l as [|prev rest IH]; intros Hpos Hs; [constructor|].
  inversion Hpos as [|? ? Hp Hrest]; subst.
  inversion Hs as [|? ? Hs' Hle]; subst.
  destruct rest as [|cur rest']; [constructor|].
  change (growth_steps (prev :: cur :: rest'))
    with ((if Qeq_bool prev 0 then []
           else [(cur - prev) / Qabs prev]) ++ growth_steps (cur :: rest')).
  apply Forall_app. split; [|now apply IH].
  destruct (Qeq_bool prev 0); constructor; [|constructor].
  inversion Hle as [|? ? Hc _]; subst.
  assert (Habs : Qabs prev == prev) by (apply Qabs_pos; lra).
  rewrite Habs. apply Qle_shift_div_l; lra.
Qed.

Lemma Qsum_nonneg (l : list Q) :
  Forall (fun g => 0 <= g) l -> 0 <= Qsum l.
Proof.
  induction 1 as [|g l Hg _ IH]; simpl; [lra|]. fold (Qsum l). lra.
Qed.

(** X6.  The historical growth rate is always within [-0.5, 0.5]; it is 0
    when fewer than two values are positive; values that are zero or
    negative are ignored altogether; and it is not negative when the
    positive values never decrease. *)
Theorem growth_rate_capped (data : list Q) :
  -0.5 <= _calculate_growth_rate data
  /\ _calculate_growth_rate data <= 0.5
  /\ ((length (filter (fun x => Qltb 0 x) data) < 2)%nat ->
      _calculate_growth_rate data = 0)
  /\ _calculate_growth_rate data
     = _calculate_growth_rate (filter (fun x => Qltb 0 x) data)
  /\ (StronglySorted Qle (filter (fun x => Qltb 0 x) data) ->
      0 <= _calculate_growth_rate data).
Proof.
  set (valid := filter (fun x => Qltb 0 x) data).
  assert (Hlen : (length valid <= length data)%nat) by apply filter_length_le.
  assert (Hidem : filter (fun x => Qltb 0 x) valid = valid).
  { unfold valid. clear. induction data as [|x l IH]; simpl; [reflexivity|].
    destruct (Qltb 0 x) eqn:E; simpl; [now rewrite E, IH | exact IH]. }
  assert (Hpos : Forall (fun x => 0 < x) valid).
  { apply Forall_forall. intros x Hx. unfold valid in Hx.
    apply filter_In in Hx as [_ Hx]. now apply Qltb_lt. }
  assert (Hshape : _calculate_growth_rate data
                   = if (length valid <? 2)%nat then 0
                     else match growth_steps valid with
                          | [] => 0
                          | _ :: _ =>
                              py_max_Q (-0.5)
                                (py_min_Q 0.5
                                   (fold_left Qplus (growth_steps valid) 0
                                    / inject_Z
                                        (Z.of_nat
                                           (length (growth_steps valid)))))
                          end).
  { unfold _calculate_growth_rate. fold valid.
    destruct (length data <? 2)%nat eqn:E1; [|reflexivity].
    apply Nat.ltb_lt in E1.
    assert (E2 : (length valid <? 2)%nat = true) by (apply Nat.ltb_lt; lia).
    now rewrite E2. }
  assert (Hself : _calculate_growth_rate valid = _calculate_growth_rate data).
  { rewrite Hshape. unfold _calculate_growth_rate. rewrite Hidem.
    destruct (length valid <? 2)%nat; reflexivity. }
  rewrite Hself, Hshape.
  destruct (length valid <? 2)%nat eqn:E; [apply Nat.ltb_lt in E|
                                            apply Nat.ltb_ge in E].
  { repeat split; try lra; try reflexivity. }
  destruct (growth_steps valid) as [|g gs] eqn:Eg.
  { repeat split; try lra; try reflexivity. }
  set (avg := fold_left Qplus (g :: gs) 0
              / inject_Z (Z.of_nat (length (g :: gs)))).
  destruct (growth_cap_bounds avg) as (H1 & H2 & H3).
  repeat split; auto.
  - intros H. lia.
  - intros Hs. apply H3. unfold avg.
    assert (Hn : 0 < inject_Z (Z.of_nat (length (g :: gs)))).
    { change 0 with (inject_Z 0). rewrite <- Zlt_Qlt. simpl length. lia. }
    apply Qle_shift_div_l; [exact Hn|].
    rewrite fold_left_Qplus.
    assert (0 <= Qsum (g :: gs)).
    { apply Qsum_nonneg. rewrite <- Eg. now apply growth_steps_nonneg. }
    lra.
Qed.

(** X6 on a history with a loss in the middle. *)
Lemma growth_rate_capped_witness :
  _calculate_growth_rate [100; -20; 110; 121] == 0.1
  /\ _calculate_growth_rate [100; -20; 0] = 0
  /\ 0 <= _calculate_growth_rate [100; -20; 110; 121].
Proof.
  destruct (growth_rate_capped [100; -20; 110; 121]) as (_ & _ & _ & _ & H).
  destruct (growth_rate_capped [100; -20; 0]) as (_ & _ & H0 & _).
  split; [vm_compute; reflexivity|]. split.
  - apply H0. vm_compute. lia.
  - apply H. vm_compute.
    repeat (constructor; try (vm_compute; discriminate)).
Defined.

(* ===================================================================== *)
(** ** The health flags *)
(* ===================================================================== *)

(** Each flag is in the list exactly when its test in [_diagnostics]
    holds. *)
Lemma health_flags_tests (base : BaseCase) (w t : float) (y : nat) :
  let d := _diagnostics base w t y in
  (In "WACC not greater than terminal growth"%string (health_flags d)
   <-> fleb w t = true)
  /\ (In "Enterprise value non positive"%string (health_flags d)
      <-> (negb (isfinite (enterprise_value base))
           || fleb (enterprise_value base) (Fin 0))%bool = true)
  /\ (In "Short duration implies heavy back loading"%string (health_flags d)
      <-> (truthy (duration_years_pv_cashflows d)
           && fltb (duration_years_pv_cashflows d) (Fin 2))%bool = true)
  /\ (In "Terminal value dominates the enterprise value"%string
         (health_flags d)
      <-> terminal_value_dominant d = true).
Proof.
  unfold _diagnostics.
  cbn [health_flags duration_years_pv_cashflows terminal_value_dominant].
  destruct (fleb w t);
    destruct (negb (isfinite (enterprise_value base))
              || fleb (enterprise_value base) (Fin 0))%bool;
    destruct (truthy (duration_years (pv_fcf_projections base))
              && fltb (duration_years (pv_fcf_projections base)) (Fin 2))%bool;
    destruct (if isfinite _ then fgtb _ (Fin 0.7) else false);
    cbn [app In];
    repeat split; intros H; try reflexivity; try discriminate;
    repeat (destruct H as [H|H]; try discriminate H); auto 6.
Qed.

(** The duration is a number or [nan], never an infinity. *)
Lemma duration_years_number_or_nan (pv : list float) :
  duration_years pv = NaN \/ exists q, duration_years pv = Fin q.
Proof.
  destruct (forallb isfinite pv) eqn:Hfin.
  - destruct pv as [|x pv']; [left; reflexivity|].
    apply finite_list in Hfin. rewrite Hfin.
    destruct (duration_years_Fin (map to_Q (x :: pv')))
      as (s & d & _ & _ & Hd & _); [discriminate|].
    right. eauto.
  - left. unfold duration_years. now rewrite Hfin, andb_false_r.
Qed.

(** X7.  The health flags say what the diagnostics found: the WACC flag is
    there exactly when WACC <= terminal growth; the enterprise-value flag
    exactly when the enterprise value is not a positive number; the
    terminal-value flag exactly when the terminal share is a number above
    0.7; and the duration flag exactly when the duration is a number other
    than zero and below 2, so a duration of 0 (a sum of present values that
    is not positive) or [nan] does not raise it. *)
Theorem health_flags_meaning (base : BaseCase) (w t : float) (y : nat) :
  let d := _diagnostics base w t y in
  (In "WACC not greater than terminal growth"%string (health_flags d)
   <-> fle w t)
  /\ (In "Enterprise value non positive"%string (health_flags d)
      <-> ~ exists ev, enterprise_value base = Fin ev /\ 0 < ev)
  /\ (In "Short duration implies heavy back loading"%string (health_flags d)
      <-> exists q, duration_years_pv_cashflows d = Fin q /\
                    ~ q == 0 /\ q < 2)
  /\ (In "Terminal value dominates the enterprise value"%string
         (health_flags d)
      <-> exists sh, terminal_value_share d = Fin sh /\ 0.7 < sh).
Proof.
  intros d.
  destruct (health_flags_tests base w t y) as (H1 & H2 & H3 & H4).
  fold d in H1, H2, H3, H4.
  split; [exact H1|]. split; [|split].
  - rewrite H2. destruct (enterprise_value base) as [ev| | |]; cbn.
    + rewrite Qle_bool_iff. split.
      * intros Hle (ev' & [= <-] & Hpos). lra.
      * intros Hn. apply Qnot_lt_le. intros Hpos. apply Hn. eauto.
    + split; [intros _ (ev' & He & _); discriminate | reflexivity].
    + split; [intros _ (ev' & He & _); discriminate | reflexivity].
    + split; [intros _ (ev' & He & _); discriminate | reflexivity].
  - rewrite H3.
    destruct (duration_years_number_or_nan (pv_fcf_projections base))
      as [Hd|[q Hd]];
      change (duration_years_pv_cashflows d)
        with (duration_years (pv_fcf_projections base)); rewrite Hd; cbn.
    + split; [discriminate | intros (q & Hq & _); discriminate].
    + rewrite andb_true_iff, negb_true_iff, Qeq_bool_false, Qltb_lt.
      split.
      * intros [Hz Hlt]. exists q. auto.
      * intros (q' & [= <-] & Hz & Hlt). auto.
  - rewrite H4. unfold d, _diagnostics.
    cbn [terminal_value_dominant terminal_value_share].
    destruct (if fgtb (enterprise_value base) (Fin 0)
              then fdiv (pv_terminal_value base) (enterprise_value base)
              else NaN) as [sh| | |]; cbn.
    + rewrite Qltb_lt. split.
      * intros Hlt. eauto.
      * intros (sh' & [= <-] & Hlt). exact Hlt.
    + split; [discriminate | intros (sh' & Hs & _); discriminate].
    + split; [discriminate | intros (sh' & Hs & _); discriminate].
    + split; [discriminate | intros (sh' & Hs & _); discriminate].
Qed.

(** X8.  Validation compares the rates as given, the diagnostics compare
    them after the conversion to nominal rates.  In the result of a call
    in nominal mode the flag "WACC not greater than terminal growth" is
    therefore never raised, whatever the rates, [nan] included; in the
    result of a call in real mode with rates that are numbers and an
    inflation of -100% or less it always is. *)
Theorem wacc_flag_by_mode (np : Numpy) (a : Inputs)
    (s s' : rng_state np) (r : ValuationResult) :
  calculate_dcf_valuation np a s = (Ok r, s') ->
  (real_mode a = false ->
   ~ In "WACC not greater than terminal growth"%string
        (health_flags (diagnostics r)))
  /\ (real_mode a = true ->
      isfinite (wacc a) = true -> isfinite (terminal_growth a) = true ->
      fle (fadd (Fin 1) (inflation a)) (Fin 0) ->
      In "WACC not greater than terminal growth"%string
         (health_flags (diagnostics r))).
Proof.
  intros Hr.
  apply calculate_ok_inv in Hr
    as (Hv & b & mc & sm & _ & _ & _ & _ & _ & Hd & _).
  apply validate_ok in Hv as (_ & Hwt & Hw0 & Ht0).
  rewrite Hd.
  destruct (health_flags_tests b (wacc_nom a) (tg_nom a)
              (Z.to_nat (years a))) as (H1 & _).
  cbv zeta in H1. rewrite H1.
  unfold wacc_nom, tg_nom, to_nominal. split.
  - intros ->. rewrite Hwt. discriminate.
  - intros -> Hw Ht Hi.
    destruct (wacc a) as [w| | |]; try discriminate Hw.
    destruct (terminal_growth a) as [t| | |]; try discriminate Ht.
    cbn [fleb fltb] in Hwt, Hw0, Ht0. apply Qle_bool_gt in Hwt.
    apply Qltb_ge in Hw0, Ht0.
    unfold fle in Hi.
    destruct (inflation a) as [k| | |]; cbn [fadd fleb] in Hi;
      try discriminate Hi.
    + apply Qle_bool_iff in Hi. unfold fsub.
      cbn [fadd fmul fopp fleb]. apply Qle_bool_iff. nra.
    + unfold fsub. cbn [fadd fmul fopp].
      rewrite !signed_pos by lra. reflexivity.
Qed.

(** X8 on a call in real mode with an inflation of -200%. *)
Lemma wacc_flag_by_mode_witness :
  exists r s',
    calculate_dcf_valuation Toy.numpy deflation_call 0%Z = (Ok r, s')
    /\ In "WACC not greater than terminal growth"%string
          (health_flags (diagnostics r)).
Proof.
  destruct (calculate_total Toy.numpy deflation_call 0%Z) as (r & s' & Hr);
    [reflexivity | reflexivity | discriminate | vm_compute; reflexivity |].
  exists r, s'. split; [exact Hr|].
  apply (wacc_flag_by_mode Toy.numpy deflation_call 0%Z s' r Hr);
    reflexivity.
Defined.

(* ===================================================================== *)
(** ** More on the Monte Carlo engine *)
(* ===================================================================== *)

Lemma clipped_bounded (X : list float) (lo hi : Q) :
  lo <= hi -> Forall not_nan X ->
  Forall (fun x => exists q : Q, x = Fin q /\ lo <= q /\ q <= hi)
         (map (fun x => np_clip x (Fin lo) (Fin hi)) X).
Proof.
  intros Hlh. induction 1 as [|x X Hx _ IH]; cbn [map]; constructor;
    [|exact IH].
  destruct (np_clip_number x lo hi Hx Hlh) as (q & -> & H1 & H2). eauto.
Qed.

Section MonteCarloFacts.

Variable np : Numpy.

Lemma sample_trials_growth (bf g w t : float) (n : nat)
    (rp : float) s tr s' :
  not_nan g ->
  sample_trials np bf g w t n rp s = (Ok tr, s') ->
  Forall growth_bounded (mc_g tr).
Proof.
  intros Hg.
  cbv beta iota zeta delta
    [sample_trials mbind rand normal standard_t mret].
  intros [= <- _]. cbn [mc_g].
  apply (clipped_bounded _ (-0.30) 0.40); [lra|].
  apply Forall_np_where.
  - apply Forall_forall. intros x Hx.
    apply in_map_iff in Hx as (c & <- & Hc).
    apply in_map_iff in Hc as (z & <- & _).
    apply minimum_number; [cbn [fmul] | unfold fsub; cbn [fopp]];
      now apply shift_number.
  - rewrite map_map.
    apply (Forall_vmap2 (fun c => exists p, c = fadd g (Fin p))
                        (fun c => exists p, c = fadd g (Fin p))).
    + intros x y [p ->] [q ->]. now apply mix_number.
    + apply Forall_forall. intros x Hx.
      apply in_map_iff in Hx as (z & <- & _). eexists. reflexivity.
    + apply Forall_forall. intros x Hx.
      apply in_map_iff in Hx as (z & <- & _). eexists. reflexivity.
Qed.

Lemma details_growth_from_trials tr ev ps idx ds :
  for_each (detail_of tr ev ps) idx = Ok ds ->
  Forall (fun d => exists i,
            nth_error (mc_g tr) i = Some (d_growth_rate d)) ds.
Proof.
  revert ds. induction idx as [|i idx IH]; simpl; intros ds H.
  - injection H as <-. constructor.
  - apply rbind_ok_inv in H as (d & Hd & H).
    apply rbind_ok_inv in H as (ds' & Hds & H). injection H as <-.
    constructor; [|apply IH, Hds].
    unfold detail_of in Hd.
    apply rbind_ok_inv in Hd as (x1 & _ & Hd).
    apply rbind_ok_inv in Hd as (x2 & H2 & Hd).
    apply rbind_ok_inv in Hd as (x3 & _ & Hd).
    apply rbind_ok_inv in Hd as (x4 & _ & Hd).
    apply rbind_ok_inv in Hd as (x5 & _ & Hd).
    apply rbind_ok_inv in Hd as (x6 & _ & Hd).
    apply rbind_ok_inv in Hd as (x7 & _ & Hd).
    injection Hd as <-. exists i. cbn [d_growth_rate].
    now apply index_nth_error.
Qed.


End MonteCarloFacts.

(** X9.  Whenever the nominal growth rate of a call is not [nan], every
    trial the call samples has a growth rate that is a number in
    [-0.30, 0.40], and so has every scenario recorded in a result. *)
Theorem sampled_growth_bounded (np : Numpy) (a : Inputs) (s : rng_state np) :
  not_nan (g_nom a) ->
  (exists tr s',
     sample_trials np (resolved_base_fcf a) (g_nom a)
       (wacc_nom a) (tg_nom a) (Z.to_nat (monte_carlo_runs a))
       (recession_prob a) s = (Ok tr, s')
     /\ length (mc_g tr) = Z.to_nat (monte_carlo_runs a)
     /\ Forall growth_bounded (mc_g tr))
  /\ (forall r s',
        calculate_dcf_valuation np a s = (Ok r, s') ->
        Forall (fun d => growth_bounded (d_growth_rate d))
               (mc_sample_scenarios r)).
Proof.
  intros Hg. split.
  - destruct (sample_trials_ok np (resolved_base_fcf a) (g_nom a)
                (wacc_nom a) (tg_nom a)
                (Z.to_nat (monte_carlo_runs a)) (recession_prob a) s)
      as [tr Htr].
    exists tr. eexists. split; [exact Htr|].
    destruct (sample_trials_size np _ _ _ _ _ _ _ _ _ Htr)
      as (_ & Hlen & _).
    split; [exact Hlen|].
    exact (sample_trials_growth np _ _ _ _ _ _ _ _ _ Hg Htr).
  - intros r s' Hr.
    apply calculate_ok_inv in Hr
      as (_ & b & [ps ds] & sm & _ & Hmc & _ & _ & _ & _ & _ & _ & _ & Hsc).
    rewrite Hsc. cbn [snd].
    apply monte_carlo_ok_inv in Hmc as (tr & s1 & ev & idx & Htr & _ & Hds).
    apply (sample_trials_growth np _ _ _ _ _ _ _ _ _ Hg) in Htr.
    apply details_growth_from_trials in Hds.
    apply Forall_forall. intros d Hd.
    assert (Hd' : In d ds).
    { rewrite <- (firstn_skipn 10 ds). apply in_or_app. now left. }
    rewrite Forall_forall in Hds, Htr. destruct (Hds d Hd') as (i & Hg').
    apply Htr. eapply nth_error_In, Hg'.
Qed.

(** X9 on a call of scenario A. *)
Lemma sampled_growth_bounded_witness :
  not_nan (g_nom scenario_A) /\
  exists r s',
    calculate_dcf_valuation Toy.numpy scenario_A 0%Z = (Ok r, s')
    /\ Forall (fun d => growth_bounded (d_growth_rate d))
              (mc_sample_scenarios r).
Proof.
  split; [reflexivity|].
  destruct (calculate_total Toy.numpy scenario_A 0%Z) as (r & s' & Hr);
    [reflexivity | reflexivity | discriminate | vm_compute; reflexivity |].
  exists r, s'. split; [exact Hr|].
  exact (proj2 (sampled_growth_bounded Toy.numpy scenario_A 0%Z eq_refl)
               r s' Hr).
Defined.

Lemma base_case_lengths (f g w t : float) (y : nat) (sh ch : float)
    (br : CapitalBridge) (b : BaseCase) :
  _base_case_breakdown f g w t y sh ch br = Ok b ->
  length (fcf_projections b) = y /\ length (pv_fcf_projections b) = y.
Proof.
  unfold _base_case_breakdown. intros H.
  apply rbind_ok_inv in H as (x & _ & H).
  apply rbind_ok_inv in H as (tv & _ & H). injection H as <-.
  cbn [fcf_projections pv_fcf_projections].
  unfold _pv_series, _project_fcf, arange1.
  rewrite !length_map, length_combine, !length_map, !length_seq.
  split; [reflexivity | apply Nat.min_id].
Qed.

(** X10.  A result has the shape its arguments fix: the horizon is within
    [3, 10] and both yearly arrays of the base case have one entry per
    year; the run count is not negative, the result records
    min(10, runs) scenarios and its summary counts at most [runs]
    values. *)
Theorem result_shapes (np : Numpy) (a : Inputs) (s s' : rng_state np)
    (r : ValuationResult) :
  calculate_dcf_valuation np a s = (Ok r, s') ->
  (3 <= years a <= 10)%Z /\ (0 <= monte_carlo_runs a)%Z /\
  length (fcf_projections (base_case r)) = Z.to_nat (years a) /\
  length (pv_fcf_projections (base_case r)) = Z.to_nat (years a) /\
  length (mc_sample_scenarios r)
  = Nat.min 10 (Z.to_nat (monte_carlo_runs a)) /\
  (s_count (monte_carlo r) <= Z.to_nat (monte_carlo_runs a))%nat.
Proof.
  intros Hr.
  apply calculate_ok_inv in Hr
    as (Hv & b & [ps ds] & sm & Hb & Hmc & Hsm & -> & -> & _ & _ & _ & _
        & ->).
  pose proof (years_nonzero a Hv) as Hy.
  apply validate_ok in Hv as (Hyears & _).
  destruct (base_case_lengths _ _ _ _ _ _ _ _ _ Hb) as [Hl1 Hl2].
  destruct (monte_carlo_ok_shape np _ _ _ _ _ _ _ _ _ _ _ _ _ _ Hmc Hy)
    as (Hn & Hds & Hps).
  repeat split; try lia; try assumption.
  - cbn [snd]. rewrite length_firstn, Hds. lia.
  - cbn [fst] in Hsm. destruct ps as [l|x]; [|discriminate].
    injection Hsm as <-.
    destruct (fgtb _ _); [|discriminate].
    destruct Hps as (l' & [= <-] & Hl).
    unfold summarize_array.
    destruct (_ || _)%bool; cbn [s_count nan_summary]; [lia|].
    rewrite <- Hl. apply filter_length_le.
Qed.

(** X10 on a call of scenario A, which asks for four runs. *)
Lemma result_shapes_witness :
  exists r s',
    calculate_dcf_valuation Toy.numpy scenario_A 0%Z = (Ok r, s')
    /\ length (mc_sample_scenarios r) = 4%nat
    /\ length (fcf_projections (base_case r)) = 5%nat.
Proof.
  destruct (calculate_total Toy.numpy scenario_A 0%Z) as (r & s' & Hr);
    [reflexivity | reflexivity | discriminate | vm_compute; reflexivity |].
  exists r, s'. split; [exact Hr|].
  destruct (result_shapes Toy.numpy scenario_A 0%Z s' r Hr)
    as (_ & _ & H1 & _ & H2 & _).
  split; [exact H2 | exact H1].
Defined.



(* ===================================================================== *)
(** ** The analysis endpoint *)
(* ===================================================================== *)

Lemma py_or_cases (x : option float) (d : float) :
  py_or x d = d
  \/ (exists v, x = Some v /\ truthy v = true /\ py_or x d = v).
Proof.
  destruct x as [v|]; cbn [py_or]; [|now left].
  destruct (truthy v) eqn:E; [|now left].
  right. exists v. auto.
Qed.

(** The share count at the end of the endpoint's five-year horizon passes
    the test [> 0] exactly when the fetched one does. *)
Lemma analysis_end_shares (d : StockData) (rq : StockAnalysisRequest) :
  fgtb (end_shares (analysis_inputs d rq)) (Fin 0)
  = fgtb (shares_outstanding (analysis_inputs d rq)) (Fin 0).
Proof.
  unfold end_shares, analysis_inputs, _shares_path.
  cbn [shares_outstanding annual_share_change years].
  change (Z.to_nat 5) with 5%nat.
  destruct (match sd_shares_outstanding d with
            | Some sh => sh
            | None => Fin 1000000000
            end) as [q| | |]; try reflexivity.
  cbn. unfold Qltb. qcases; try reflexivity; exfalso; nra.
Qed.

(** X12.  Given stock data and a request body, [analyze_stock] returns the
    analysis exactly when none of the three tests of the calculator's
    validation holds of the resolved rates (the discount rate is not at or
    below the terminal growth, and neither is negative; a [nan] rate fails
    no test) and the share count is greater than 0; the analysis is then
    the calculator's result on the resolved arguments.  Every other
    outcome is the exception with status 500 and the fixed detail. *)
Theorem analyze_stock_outcomes (np : Numpy) (ticker : string)
    (d : StockData) (rq : StockAnalysisRequest) (s : rng_state np) :
  let a := analysis_inputs d rq in
  let out := fst (analyze_stock np ticker (FetchData d) (Some rq) s) in
  ((exists r, out = Returned ticker d r
              /\ fst (calculate_dcf_valuation np a s) = Ok r)
   <-> (~ fle (wacc a) (terminal_growth a) /\ ~ flt (wacc a) (Fin 0)
        /\ ~ flt (terminal_growth a) (Fin 0)
        /\ flt (Fin 0) (shares_outstanding a)))
  /\ ((exists t' d' r, out = Returned t' d' r)
      \/ out = HTTPException 500 "Internal server error occurred").
Proof.
  intros a out. subst out. unfold analyze_stock. fold a.
  unfold fle, flt.
  destruct (_validate_inputs (wacc a) (terminal_growth a) (years a))
    as [[]|e] eqn:Hv.
  - pose proof Hv as Hv'. apply validate_ok in Hv' as (_ & Htw & Hw & Ht).
    assert (Hs : terminal_safe (wacc_nom a) (tg_nom a) = true)
      by (now apply nominal_terminal_safe).
    destruct (fgtb (shares_outstanding a) (Fin 0)) eqn:Hsh.
    + destruct (calculate_total np a s Hv Hs) as (r & s' & Hr).
      * unfold a. cbn. lia.
      * unfold a. now rewrite analysis_end_shares.
      * rewrite Hr. cbn [fst]. split; [|left; eauto]. split.
        -- intros _. rewrite Htw, Hw, Ht. unfold fgtb in Hsh.
           repeat split; try discriminate. exact Hsh.
        -- intros _. eauto.
    + pose proof (calculate_type_error np a s Hv Hs) as Hr.
      destruct (calculate_dcf_valuation np a s) as [[r|e] s'].
      * exfalso. cbn [fst] in Hr.
        assert (H : Ok r = Raise TypeError :> result ValuationResult).
        { apply Hr; [unfold a; cbn; lia|].
          unfold a. now rewrite analysis_end_shares. }
        discriminate H.
      * cbn [fst]. split; [|now right]. split.
        -- intros (r & H & _). discriminate H.
        -- intros (_ & _ & _ & H). unfold fgtb in Hsh. congruence.
  - rewrite (calculate_refused np a s e Hv). cbn [fst].
    split; [|now right]. split.
    + intros (r & H & _). discriminate H.
    + intros (Htw & Hw & Ht & _). exfalso.
      assert (Hok : _validate_inputs (wacc a) (terminal_growth a) (years a)
                    = Ok tt).
      { apply validate_ok.
        repeat split; try (unfold a; cbn; lia);
          apply not_true_is_false; assumption. }
      rewrite Hok in Hv. discriminate Hv.
Qed.

(** Without a share count greater than 0 the handler raises the exception
    with status 500, whatever the request asks for. *)
Lemma analyze_stock_no_shares (np : Numpy) (ticker : string) (d : StockData)
    (rq : StockAnalysisRequest) (s : rng_state np) :
  fgtb (shares_outstanding (analysis_inputs d rq)) (Fin 0) = false ->
  fst (analyze_stock np ticker (FetchData d) (Some rq) s)
  = HTTPException 500 "Internal server error occurred".
Proof.
  intros Hsh. unfold analyze_stock.
  set (a := analysis_inputs d rq) in *.
  destruct (_validate_inputs (wacc a) (terminal_growth a) (years a))
    as [[]|e] eqn:Hv.
  - assert (Hs : terminal_safe (wacc_nom a) (tg_nom a) = true)
      by (now apply nominal_terminal_safe).
    pose proof (calculate_type_error np a s Hv Hs) as Hr.
    destruct (calculate_dcf_valuation np a s) as [[r|e] s'];
      [|reflexivity].
    exfalso. cbn [fst] in Hr.
    assert (H : Ok r = Raise TypeError :> result ValuationResult).
    { apply Hr; [unfold a; cbn; lia|].
      unfold a. now rewrite analysis_end_shares. }
    discriminate H.
  - now rewrite (calculate_refused np a s e Hv).
Qed.

(** X13.  On the data that the live path of [get_stock_data] returns,
    [analyze_stock] never returns an analysis: for every ticker, request
    body and generator state it raises the exception with status 500. *)
Theorem live_data_never_analysed (np : Numpy) (ticker : string)
    (request : option StockAnalysisRequest) (s : rng_state np) :
  fst (analyze_stock np ticker (FetchData live_stock_data) request s)
  = HTTPException 500 "Internal server error occurred".
Proof.
  destruct request as [rq|]; [|reflexivity].
  apply analyze_stock_no_shares. reflexivity.
Qed.

(** X14.  The rates a request that passed its validators resolves to.
    Each is [nan], which every validator lets through and [or] keeps, or a
    number: the growth rate within [-0.5, 2] and never zero, the discount
    rate within (0, 0.5] and the terminal growth within (0, 0.1], a
    requested zero being replaced by the default.  The calculator's own
    validation then accepts them exactly when its test
    [wacc <= terminal growth] is false. *)
Theorem accepted_request_rates (d : StockData) (rq : StockAnalysisRequest) :
  request_accepted rq ->
  let a := analysis_inputs d rq in
  (fcf_growth_rate a = NaN
   \/ exists g, fcf_growth_rate a = Fin g /\ -0.5 <= g /\ g <= 2
                /\ ~ g == 0)
  /\ (wacc a = NaN \/ exists w, wacc a = Fin w /\ 0 < w /\ w <= 0.5)
  /\ (terminal_growth a = NaN
      \/ exists t, terminal_growth a = Fin t /\ 0 < t /\ t <= 0.1)
  /\ (_validate_inputs (wacc a) (terminal_growth a) (years a) = Ok tt
      <-> fleb (wacc a) (terminal_growth a) = false).
Proof.
  intros (Hg & Hw & Ht) a.
  assert (Hga : fcf_growth_rate a = NaN
                \/ exists g, fcf_growth_rate a = Fin g /\ -0.5 <= g
                             /\ g <= 2 /\ ~ g == 0).
  { unfold a. cbn [analysis_inputs fcf_growth_rate].
    destruct (py_or_cases (rq_growth_rate rq) (Fin 0.05))
      as [-> | (v & Hv & Hv0 & ->)];
      [right; exists 0.05; repeat split; lra|].
    rewrite Hv in Hg. unfold validate_growth_rate in Hg.
    destruct (_ || _)%bool eqn:E; [discriminate|].
    apply orb_false_iff in E as [E1 E2]. unfold fgtb in E2.
    destruct v as [q| | |]; cbn [fltb truthy] in *;
      try discriminate; [|now left].
    right. exists q. apply Qltb_ge in E1, E2.
    apply negb_true_iff, Qeq_bool_false in Hv0. auto. }
  assert (Hwa : wacc a = NaN
                \/ exists w, wacc a = Fin w /\ 0 < w /\ w <= 0.5).
  { unfold a. cbn [analysis_inputs wacc].
    destruct (py_or_cases (rq_discount_rate rq) (Fin 0.10))
      as [-> | (v & Hv & Hv0 & ->)];
      [right; exists 0.10; repeat split; lra|].
    rewrite Hv in Hw. unfold validate_discount_rate in Hw.
    destruct (_ || _)%bool eqn:E; [discriminate|].
    apply orb_false_iff in E as [E1 E2]. unfold fgtb in E2.
    destruct v as [q| | |]; cbn [fltb fleb truthy] in *;
      try discriminate; [|now left].
    right. exists q. apply Qle_bool_gt in E1. apply Qltb_ge in E2. auto. }
  assert (Hta : terminal_growth a = NaN
                \/ exists t, terminal_growth a = Fin t /\ 0 < t
                             /\ t <= 0.1).
  { unfold a. cbn [analysis_inputs terminal_growth].
    destruct (py_or_cases (rq_terminal_growth rq) (Fin 0.03))
      as [-> | (v & Hv & Hv0 & ->)];
      [right; exists 0.03; repeat split; lra|].
    rewrite Hv in Ht. unfold validate_terminal_growth in Ht.
    destruct (_ || _)%bool eqn:E; [discriminate|].
    apply orb_false_iff in E as [E1 E2]. unfold fgtb in E2.
    destruct v as [q| | |]; cbn [fltb truthy] in *;
      try discriminate; [|now left].
    right. exists q. apply Qltb_ge in E1, E2.
    apply negb_true_iff, Qeq_bool_false in Hv0.
    repeat split; auto.
    destruct (Qlt_le_dec 0 q) as [|Hle]; [assumption|].
    exfalso. apply Hv0. lra. }
  split; [exact Hga|]. split; [exact Hwa|]. split; [exact Hta|].
  rewrite validate_ok. split; [tauto|].
  intros H. split; [unfold a; cbn; lia|]. split; [exact H|].
  split.
  - destruct Hwa as [-> | (w & -> & Hw0 & _)]; [reflexivity|].
    cbn [fltb]. apply Qltb_ge. lra.
  - destruct Hta as [-> | (t & -> & Ht0 & _)]; [reflexivity|].
    cbn [fltb]. apply Qltb_ge. lra.
Qed.

(** X14 on a request that asks for a terminal growth of zero: the
    calculator is called with a positive one. *)
Lemma accepted_request_rates_witness :
  request_accepted zero_terminal_request /\
  exists t,
    terminal_growth (analysis_inputs live_stock_data zero_terminal_request)
    = Fin t /\ 0 < t.
Proof.
  assert (H : request_accepted zero_terminal_request)
    by (repeat split; reflexivity).
  split; [exact H|].
  destruct (accepted_request_rates live_stock_data zero_terminal_request H)
    as (_ & _ & [Hn | (t & Ht & Ht0 & _)] & _).
  - vm_compute in Hn. discriminate Hn.
  - exists t. split; [exact Ht | exact Ht0].
Defined.

(* ===================================================================== *)
(** ** The recession regime *)
(* ===================================================================== *)

Lemma minimum_le_right (x y : float) :
  not_nan x -> not_nan y -> fle (np_minimum x y) y.
Proof.
  unfold not_nan, np_minimum, fle.
  destruct x as [p| | |], y as [q| | |]; try discriminate; intros _ _;
    cbn [fleb]; try reflexivity.
  - destruct (Qle_bool p q) eqn:E; cbn [fleb]; [exact E|].
    apply Qle_bool_iff, Qle_refl.
  - apply Qle_bool_iff, Qle_refl.
Qed.

Lemma recession_growth_clipped (rec : list bool) (A B : list float)
    (cap : float) (i : nat) (x : float) :
  Forall (fun a => not_nan a /\ fle a cap) A ->
  nth_error rec i = Some true ->
  nth_error (map (fun x => np_clip x (Fin (-0.30)) (Fin 0.40))
                 (np_where rec A B)) i = Some x ->
  exists q, x = Fin q /\ (fle (Fin q) cap \/ q == -0.30).
Proof.
  unfold np_where, vmap2. intros HA. revert rec B i x.
  induction HA as [|a A [Hn Hc] _ IH]; intros [|r rec] [|b B] [|i] x;
    cbn [combine map nth_error fst snd]; try discriminate.
  - intros [= ->] [= <-].
    destruct a as [p| | |]; try discriminate Hn.
    + unfold np_clip, np_maximum, np_minimum. cbn [fleb].
      destruct (Qle_bool p (-0.30)) eqn:E1;
        [apply Qle_bool_iff in E1 | apply Qle_bool_gt in E1]; cbn [fleb].
      * destruct (Qle_bool (-0.30) 0.40) eqn:E2;
          [|vm_compute in E2; discriminate E2].
        eexists. split; [reflexivity|]. right. reflexivity.
      * destruct (Qle_bool p 0.40) eqn:E2;
          [apply Qle_bool_iff in E2 | apply Qle_bool_gt in E2];
          eexists; (split; [reflexivity|]); left; [exact Hc|].
        eapply fle_trans; [|exact Hc]. apply fle_Fin_iff. lra.
    + exists 0.40. split; [reflexivity|]. left.
      destruct cap; try discriminate Hc. reflexivity.
    + exists (-0.30). split; [reflexivity|]. right. reflexivity.
  - intros Hr Hx. eapply (IH rec B i x); eassumption.
Qed.

Section RecessionFacts.

Variable np : Numpy.

Lemma sample_trials_recession (bf g w t : float) (n : nat)
    (rp : float) s tr s' (i : nat) (x : float) :
  not_nan g ->
  sample_trials np bf g w t n rp s = (Ok tr, s') ->
  nth_error (mc_recession tr) i = Some true ->
  nth_error (mc_g tr) i = Some x ->
  exists q, x = Fin q /\ (fle (Fin q) (fsub g (Fin 0.03)) \/ q == -0.30).
Proof.
  intros Hg.
  cbv beta iota zeta delta
    [sample_trials mbind rand normal standard_t mret].
  intros [= <- _]. cbn [mc_g mc_recession].
  apply recession_growth_clipped.
  apply Forall_forall. intros a Ha.
  apply in_map_iff in Ha as (c & <- & Hc).
  apply in_map_iff in Hc as (z & <- & _).
  assert (H1 : not_nan (fadd g (fmul (Fin 0.02) (Fin z))))
    by (cbn [fmul]; now apply shift_number).
  assert (H2 : not_nan (fsub g (Fin 0.03)))
    by (unfold fsub; cbn [fopp]; now apply shift_number).
  split; [now apply minimum_number | now apply minimum_le_right].
Qed.

(** The regime flags of a sample are the first draw of the generator
    against the recession probability. *)
Lemma sample_trials_regime (bf g w t : float) (n : nat) (rp : float)
    s tr s' :
  sample_trials np bf g w t n rp s = (Ok tr, s') ->
  mc_recession tr
  = map (fun u => fltb (Fin u) rp) (fst (np_random_rand np n s)).
Proof.
  cbv beta iota zeta delta
    [sample_trials mbind rand normal standard_t mret].
  intros [= <- _]. cbn [mc_recession]. now rewrite map_map.
Qed.

Lemma details_regime_from_trials tr ev ps idx ds :
  for_each (detail_of tr ev ps) idx = Ok ds ->
  Forall (fun d => exists i,
            nth_error (mc_recession tr) i = Some (d_recession d) /\
            nth_error (mc_g tr) i = Some (d_growth_rate d)) ds.
Proof.
  revert ds. induction idx as [|i idx IH]; simpl; intros ds H.
  - injection H as <-. constructor.
  - apply rbind_ok_inv in H as (d & Hd & H).
    apply rbind_ok_inv in H as (ds' & Hds & H). injection H as <-.
    constructor; [|apply IH, Hds].
    unfold detail_of in Hd.
    apply rbind_ok_inv in Hd as (x1 & _ & Hd).
    apply rbind_ok_inv in Hd as (x2 & H2 & Hd).
    apply rbind_ok_inv in Hd as (x3 & _ & Hd).
    apply rbind_ok_inv in Hd as (x4 & _ & Hd).
    apply rbind_ok_inv in Hd as (x5 & _ & Hd).
    apply rbind_ok_inv in Hd as (x6 & _ & Hd).
    apply rbind_ok_inv in Hd as (x7 & H7 & Hd).
    injection Hd as <-. exists i. cbn [d_growth_rate d_recession].
    split; now apply index_nth_error.
Qed.

End RecessionFacts.

(** X17.  Whenever the nominal growth rate of a call is not [nan], in
    every scenario a result records as a recession the growth rate is a
    number that is at most the nominal growth rate less 0.03, unless it
    sits on the floor of -0.30. *)
Theorem recession_growth_capped (np : Numpy) (a : Inputs)
    (s s' : rng_state np) (r : ValuationResult) :
  calculate_dcf_valuation np a s = (Ok r, s') ->
  not_nan (g_nom a) ->
  Forall (fun d =>
            d_recession d = true ->
            exists q, d_growth_rate d = Fin q /\
                      (fle (Fin q) (fsub (g_nom a) (Fin 0.03))
                       \/ q == -0.30))
         (mc_sample_scenarios r).
Proof.
  intros Hr Hg.
  apply calculate_ok_inv in Hr
    as (_ & b & [ps ds] & sm & _ & Hmc & _ & _ & _ & _ & _ & _ & _ & Hsc).
  rewrite Hsc. cbn [snd].
  apply monte_carlo_ok_inv in Hmc as (tr & s1 & ev & idx & Htr & _ & Hds).
  apply details_regime_from_trials in Hds.
  apply Forall_forall. intros d Hd Hrec.
  assert (Hd' : In d ds).
  { rewrite <- (firstn_skipn 10 ds). apply in_or_app. now left. }
  rewrite Forall_forall in Hds. destruct (Hds d Hd') as (i & Hri & Hgi).
  rewrite Hrec in Hri.
  exact (sample_trials_recession np _ _ _ _ _ _ _ _ _ _ _ Hg Htr Hri Hgi).
Qed.

(** X17 on scenario A with a recession probability of 1: the first
    scenario recorded is a recession. *)
Lemma recession_growth_capped_witness :
  exists r s' d,
    calculate_dcf_valuation Toy.numpy recession_call 0%Z = (Ok r, s')
    /\ In d (mc_sample_scenarios r) /\ d_recession d = true
    /\ exists q, d_growth_rate d = Fin q /\
                 (fle (Fin q) (fsub (g_nom recession_call) (Fin 0.03))
                  \/ q == -0.30).
Proof.
  destruct (calculate_total Toy.numpy recession_call 0%Z) as (r & s' & Hr);
    [reflexivity | reflexivity | discriminate | vm_compute; reflexivity |].
  pose proof (recession_growth_capped Toy.numpy recession_call 0%Z s' r Hr
                eq_refl) as HF.
  pose proof Hr as Hr0.
  apply calculate_ok_inv in Hr
    as (_ & b & [ps ds] & sm & _ & Hmc & _ & _ & _ & _ & _ & _ & _ & Hsc).
  destruct (monte_carlo_ok_shape Toy.numpy _ _ _ _ _ _ _ _ _ _ _ _ _ _ Hmc)
    as (_ & Hlen & _); [discriminate|].
  pose proof Hmc as Hmc'.
  apply monte_carlo_ok_inv in Hmc' as (tr & s1 & ev & idx & Htr & _ & Hds).
  apply details_regime_from_trials in Hds.
  assert (Hall : mc_recession tr = [true; true; true; true]).
  { rewrite (sample_trials_regime Toy.numpy _ _ _ _ _ _ _ _ _ Htr).
    vm_compute. reflexivity. }
  destruct ds as [|d ds]; [discriminate Hlen|].
  assert (Hrec : d_recession d = true).
  { inversion Hds as [|? ? (i & Hi & _) _]; subst.
    rewrite Hall in Hi.
    destruct i as [|[|[|[|i]]]]; cbn in Hi; try congruence.
    destruct i; discriminate Hi. }
  rewrite Hsc in HF. cbn [snd firstn] in HF.
  exists r, s', d.
  split; [exact Hr0|]. split; [rewrite Hsc; now left|].
  split; [exact Hrec|].
  inversion HF as [|? ? Hd _]; subst. exact (Hd Hrec).
Defined.
